(** * ps-pingdom-maintenance: the reconcile loop, verified

    A shallow embedding of the Go program that keeps one Pingdom
    maintenance window in step with the checks tagged [sla].  Two versions
    of the program are covered: the polling service with Prometheus gauges
    (the current one) and the older one-shot [src/main.go], kept in
    [Module Legacy].

    Go's [int] is the 64-bit integer of the amd64 builds of the Makefile and
    is modelled by [Z]; slices are lists ([nil] and the empty slice have the
    same length and the same elements, which is all the program looks at);
    an index out of range is a run-time panic, modelled by [None]. *)

From Stdlib Require Import ZArith List String Ascii Lia Bool DecimalString DecimalZ.
From stdpp Require Import base list strings gmap.

Open Scope Z_scope.

(** ** Data model *)

(** [MaintenanceSchedule.Checks] *)
Record ScheduleChecks := {
  Uptime : list Z;
  Tms : list Z
}.

(** [MaintenanceSchedule] *)
Record MaintenanceSchedule := {
  ID : Z;
  Description : string;
  From : Z;
  To : Z;
  Duration : Z;
  Durationunit : string;
  Recurrencetype : string;
  Repeatevery : Z;
  Dayofweekinmonth : Z;
  Effectiveto : Z;
  Checks : ScheduleChecks
}.

(** [PingdomMaintenanceSchedule] *)
Record PingdomMaintenanceSchedule := {
  Maintenance : MaintenanceSchedule
}.

(** The assignment [m.Maintenance.Checks.Uptime = u] on the by-value copy
    [m]: every other field keeps its value. *)
Definition set_Uptime (m : PingdomMaintenanceSchedule) (u : list Z)
  : PingdomMaintenanceSchedule :=
  let s := Maintenance m in
  {| Maintenance :=
       {| ID := ID s;
          Description := Description s;
          From := From s;
          To := To s;
          Duration := Duration s;
          Durationunit := Durationunit s;
          Recurrencetype := Recurrencetype s;
          Repeatevery := Repeatevery s;
          Dayofweekinmonth := Dayofweekinmonth s;
          Effectiveto := Effectiveto s;
          Checks := {| Uptime := u; Tms := Tms (Checks s) |} |} |}.

Definition uptimeOf (m : PingdomMaintenanceSchedule) : list Z :=
  Uptime (Checks (Maintenance m)).

Definition tmsOf (m : PingdomMaintenanceSchedule) : list Z :=
  Tms (Checks (Maintenance m)).

(** ** The reconciler *)

(** The loop of [compareSlice]: [for i, v := range a { if v != b[i] {
    return false } }], started at index [i].  [b[i]] panics out of range. *)
Fixpoint compareSlice_range (a b : list Z) (i : nat) : option bool :=
  match a with
  | [] => Some true
  | v :: a' =>
      match b !! i with
      | None => None
      | Some w =>
          if bool_decide (v ≠ w) then Some false
          else compareSlice_range a' b (S i)
      end
  end.

(** [compareSlice] *)
Definition compareSlice (a b : list Z) : option bool :=
  if bool_decide (length a ≠ length b) then Some false
  else compareSlice_range a b 0.

(** [checkMaintenanceSchedule] *)
Definition checkMaintenanceSchedule (m : PingdomMaintenanceSchedule) (u : list Z)
  : option (bool * PingdomMaintenanceSchedule) :=
  same ← compareSlice (uptimeOf m) u;
  let upToDate := true in
  if negb same then Some (false, set_Uptime m u)
  else Some (upToDate, m).

(** The older program, [src/main.go]. *)
Module Legacy.

(** [contains] *)
Fixpoint contains (intSlice : list Z) (searchInt : Z) : bool :=
  match intSlice with
  | [] => false
  | value :: rest =>
      if bool_decide (value = searchInt) then true
      else contains rest searchInt
  end.

(** One iteration of the loop of [checkMaintenanceSchedule], on the pair of
    the two variables it updates. *)
Definition check_step (st : bool * PingdomMaintenanceSchedule) (check : Z)
  : bool * PingdomMaintenanceSchedule :=
  let '(upToDate, m) := st in
  if negb (contains (uptimeOf m) check)
  then (false, set_Uptime m (uptimeOf m ++ [check]))
  else (upToDate, m).

(** [checkMaintenanceSchedule] *)
Definition checkMaintenanceSchedule (m : PingdomMaintenanceSchedule) (u : list Z)
  : bool * PingdomMaintenanceSchedule :=
  fold_left check_step u (true, m).

End Legacy.

(** The IDs of [u] that the list [have] lacks, each once, in the order in
    which they first occur in [u]: what the older program appends. *)
Fixpoint missing (have u : list Z) : list Z :=
  match u with
  | [] => []
  | check :: u' =>
      if Legacy.contains have check then missing have u'
      else check :: missing (have ++ [check]) u'
  end.

(** A window whose uptime list is [uptime], with one TMS check. *)
Definition windowOf (uptime : list Z) : PingdomMaintenanceSchedule :=
  {| Maintenance :=
       {| ID := 42;
          Description := "sla";
          From := 1577890800;
          To := 1577944800;
          Duration := 15;
          Durationunit := "hour";
          Recurrencetype := "day";
          Repeatevery := 1;
          Dayofweekinmonth := 0;
          Effectiveto := 1893456000;
          Checks := {| Uptime := uptime; Tms := [7] |} |} |}.

(** ** Standard-library functions the program calls

    [strconv.Itoa], [strconv.Atoi] and [strings.Join] are Go library code;
    they are modelled after their documentation. *)
Module strconv.

(** [strconv.Itoa]: the decimal representation, with a leading [-] for a
    negative number. *)
Definition Itoa (i : Z) : string :=
  NilZero.string_of_int (Z.to_int i).

(** The range of Go's [int] on the 64-bit targets the Makefile builds. *)
Definition inInt (z : Z) : bool :=
  (- 2 ^ 63 <=? z) && (z <=? 2 ^ 63 - 1).

Definition checkInt (z : Z) : option Z :=
  if inInt z then Some z else None.

(** [strconv.Atoi]: an optional sign, then one decimal digit or more; the
    value has to fit [int].  [None] is the non-nil error. *)
Definition Atoi (s : string) : option Z :=
  match s with
  | EmptyString => None
  | String c rest =>
      if Ascii.eqb c "-" then
        d ← NilZero.uint_of_string rest; checkInt (- Z.of_uint d)
      else if Ascii.eqb c "+" then
        d ← NilZero.uint_of_string rest; checkInt (Z.of_uint d)
      else
        d ← NilZero.uint_of_string s; checkInt (Z.of_uint d)
  end.

(** The characters [Itoa] writes: the ten digits and the sign. *)
Definition isDigit (c : ascii) : bool :=
  (48 <=? nat_of_ascii c)%nat && (nat_of_ascii c <=? 57)%nat.

Definition isNumberChar (c : ascii) : bool :=
  isDigit c || Ascii.eqb c "-".

End strconv.

Module strings.

(** [strings.Join]: nothing for no element, the element itself for one,
    otherwise the first element and then, for each further one, the
    separator and the element. *)
Definition Join (elems : list string) (sep : string) : string :=
  match elems with
  | [] => EmptyString
  | first :: rest =>
      fold_left (fun b s => String.append (String.append b sep) s) rest first
  end.

(** [strings.Split] for a separator of one character: the pieces between
    the separators, one more than there are separators. *)
Fixpoint Split (s : string) (sep : ascii) : list string :=
  match s with
  | EmptyString => [EmptyString]
  | String c s' =>
      if Ascii.eqb c sep then EmptyString :: Split s' sep
      else match Split s' sep with
           | piece :: pieces => String c piece :: pieces
           | [] => [String c EmptyString]
           end
  end.

End strings.

(** ** The update payload *)

(** [intSliceToString]: the loop appends the text of each number to
    [valuesText], which is then joined. *)
Definition intSliceToString (v : list Z) : string :=
  let valuesText :=
    fold_left (fun valuesText number => valuesText ++ [strconv.Itoa number])
              v [] in
  let result := strings.Join valuesText "," in
  result.

(** [MaintenanceScheduleUpdate]; the fields carry the prefix [u] because
    [MaintenanceSchedule] has fields of the same names. *)
Record MaintenanceScheduleUpdate := {
  uDescription : string;
  uFrom : Z;
  uTo : Z;
  uRecurrencetype : string;
  uRepeatevery : Z;
  uEffectiveto : Z;
  uUptimeids : string;
  uTmsids : string
}.

(** What [encoding/json] writes for the program: one flat object whose
    members are strings and integers. *)
Inductive JValue :=
| JString (s : string)
| JNumber (n : Z).

Definition JObject := list (string * JValue).

(** [json.Marshal] of a [MaintenanceScheduleUpdate]: one member per field,
    in the order of the declaration, under the name of its [json] tag.  It
    cannot fail on this type. *)
Definition Marshal (schedule : MaintenanceScheduleUpdate) : JObject :=
  [ ("description"%string, JString (uDescription schedule));
    ("from"%string, JNumber (uFrom schedule));
    ("to"%string, JNumber (uTo schedule));
    ("recurrencetype"%string, JString (uRecurrencetype schedule));
    ("repeatevery"%string, JNumber (uRepeatevery schedule));
    ("effectiveto"%string, JNumber (uEffectiveto schedule));
    ("uptimeids"%string, JString (uUptimeids schedule));
    ("tmsids"%string, JString (uTmsids schedule)) ].

(** The names of the members of an object, in order. *)
Definition memberNames (j : JObject) : list string := map fst j.

(** The first member of that name, as a JSON decoder reads an object. *)
Fixpoint member (j : JObject) (name : string) : option JValue :=
  match j with
  | [] => None
  | (k, v) :: rest =>
      if String.eqb k name then Some v else member rest name
  end.

(** ** Calendar arithmetic of package [time]

    [time.Date(...).Unix()] for the location [time.UTC], after the
    library's algorithm: the days before the year, counted in cycles of 400,
    100 and 4 years from the library's year zero, the days before the month,
    the day of the month and the time of day are added up, which is how a
    day past the end of its month runs into the next month.  The sums are
    written in [Z]; the library's 64-bit words hold them for every year the
    clock of a running process can show. *)
Module time.

Definition secondsPerMinute : Z := 60.
Definition secondsPerHour : Z := 60 * secondsPerMinute.
Definition secondsPerDay : Z := 24 * secondsPerHour.
Definition daysPer400Years : Z := 365 * 400 + 97.
Definition daysPer100Years : Z := 365 * 100 + 24.
Definition daysPer4Years : Z := 365 * 4 + 1.

Definition absoluteZeroYear : Z := -292277022399.
Definition internalYear : Z := 1.

(** [(absoluteZeroYear - internalYear) * 365.2425 * secondsPerDay] *)
Definition absoluteToInternal : Z :=
  (absoluteZeroYear - internalYear) * 3652425 * secondsPerDay / 10000.

Definition unixToInternal : Z :=
  (1969 * 365 + 1969 / 4 - 1969 / 100 + 1969 / 400) * secondsPerDay.
Definition internalToUnix : Z := - unixToInternal.

(** [isLeap]; Go's [%] is the remainder of the truncated division. *)
Definition isLeap (year : Z) : bool :=
  (Z.rem year 4 =? 0) &&
  (negb (Z.rem year 100 =? 0) || (Z.rem year 400 =? 0)).

(** [daysBefore[month-1]]: the days of a common year before the month. *)
Definition daysBefore (month : Z) : Z :=
  match month with
  | 1 => 0
  | 2 => 31
  | 3 => 31 + 28
  | 4 => 31 + 28 + 31
  | 5 => 31 + 28 + 31 + 30
  | 6 => 31 + 28 + 31 + 30 + 31
  | 7 => 31 + 28 + 31 + 30 + 31 + 30
  | 8 => 31 + 28 + 31 + 30 + 31 + 30 + 31
  | 9 => 31 + 28 + 31 + 30 + 31 + 30 + 31 + 31
  | 10 => 31 + 28 + 31 + 30 + 31 + 30 + 31 + 31 + 30
  | 11 => 31 + 28 + 31 + 30 + 31 + 30 + 31 + 31 + 30 + 31
  | 12 => 31 + 28 + 31 + 30 + 31 + 30 + 31 + 31 + 30 + 31 + 30
  | _ => 31 + 28 + 31 + 30 + 31 + 30 + 31 + 31 + 30 + 31 + 30 + 31
  end.

(** [daysSinceEpoch] *)
Definition daysSinceEpoch (year : Z) : Z :=
  let y := year - absoluteZeroYear in
  let n := y / 400 in
  let y := y - 400 * n in
  let d := daysPer400Years * n in
  let n := y / 100 in
  let y := y - 100 * n in
  let d := d + daysPer100Years * n in
  let n := y / 4 in
  let y := y - 4 * n in
  let d := d + daysPer4Years * n in
  let n := y in
  d + 365 * n.

(** [norm]: [hi, lo] with [lo] brought into [0, base). *)
Definition norm (hi lo base : Z) : Z * Z :=
  (hi + lo / base, lo mod base).

(** [Date(year, month, day, hour, min, sec, 0, UTC).Unix()] *)
Definition DateUnix (year month day hour min sec : Z) : Z :=
  let '(year, m) := norm year (month - 1) 12 in
  let month := m + 1 in
  let '(min, sec) := norm min sec 60 in
  let '(hour, min) := norm hour min 60 in
  let '(day, hour) := norm day hour 24 in
  let d := daysSinceEpoch year in
  let d := d + daysBefore month in
  let d := if isLeap year && (3 <=? month) then d + 1 else d in
  let d := d + (day - 1) in
  let abs := d * secondsPerDay in
  let abs := abs + (hour * secondsPerHour + min * secondsPerMinute + sec) in
  abs + (absoluteToInternal + internalToUnix).

(** What [Year()], [Month()] and [Day()] read off a [Time]: its date in its
    own location. *)
Record Time := {
  Year : Z;
  Month : Z;
  Day : Z
}.

(** The number of a day of a month, counted from the first day of the
    library's year zero, and the Unix time of that day zero. *)
Definition dayNumber (year month day : Z) : Z :=
  daysSinceEpoch year + daysBefore month +
  (if isLeap year && (3 <=? month) then 1 else 0) + (day - 1).

Definition unixOfDayZero : Z := absoluteToInternal + internalToUnix.

(** The calendar, for stating what [DateUnix] computes: the length of a
    month, the dates that exist, and the day after a date. *)
Definition daysIn (year month : Z) : Z :=
  match month with
  | 2 => if isLeap year then 29 else 28
  | 4 | 6 | 9 | 11 => 30
  | _ => 31
  end.

Definition validDate (t : Time) : Prop :=
  1 <= Month t <= 12 /\ 1 <= Day t <= daysIn (Year t) (Month t).

Definition tomorrow (t : Time) : Time :=
  if Day t <? daysIn (Year t) (Month t) then
    {| Year := Year t; Month := Month t; Day := Day t + 1 |}
  else if Month t <? 12 then
    {| Year := Year t; Month := Month t + 1; Day := 1 |}
  else
    {| Year := Year t + 1; Month := 1; Day := 1 |}.

(** The Unix time of a time of day, UTC, on a date. *)
Definition unixAt (t : Time) (hour min sec : Z) : Z :=
  DateUnix (Year t) (Month t) (Day t) hour min sec.

End time.

(** ** Configuration *)

(** [Env] *)
Record Env := {
  apiKey : string;
  maintenanceID : Z;
  pollInterval : Z;
  metricsPort : string
}.

(** Go's [error]: the message of a non-nil error. *)
Definition error := string.

(** The pair (value, error) a Go function returns: the value with a nil
    error, or a non-nil error (the value next to it is the zero value). *)
Inductive result (A : Type) :=
| Ok (a : A)
| Err (err : error).
Arguments Ok {A} a.
Arguments Err {A} err.

(** The characters the source writes as [\t] and [\n]. *)
Definition TAB : string := String (ascii_of_nat 9) EmptyString.
Definition LF : string := String (ascii_of_nat 10) EmptyString.

(** An argument of a [log.Printf] call, next to its format. *)
Inductive LogArg :=
| ArgError (err : error)
| ArgInt (n : Z)
| ArgString (s : string)
| ArgJSON (j : JObject)
| ArgBody (b : string).

(** A line of the log: the format and the arguments of the call. *)
Record LogLine := {
  format : string;
  args : list LogArg
}.

(** How start-up ends: [log.Fatalf] prints its message and exits the
    process, otherwise [newEnv] returns the environment, having logged two
    lines. *)
Inductive Startup :=
| Fatal (message : string)
| Started (e : Env) (logged : list LogLine).

(** [newEnv] *)
Definition newEnv (apiKey : string) (maintenanceID pollInterval : Z)
  (metricsPort : string) : Startup :=
  if bool_decide (apiKey = EmptyString) then
    Fatal "Could not parse env API_KEY"
  else if bool_decide (maintenanceID = 0) then
    Fatal "Could not parse env MAINTENANCE_ID"
  else
    let pollInterval :=
      if bool_decide (pollInterval = 0) then 300 else pollInterval in
    let metricsPort :=
      if bool_decide (metricsPort = EmptyString) then "9600"%string
      else metricsPort in
    let e := {| apiKey := apiKey;
                maintenanceID := maintenanceID;
                pollInterval := pollInterval;
                metricsPort := metricsPort |} in
    Started e
      [ {| format := TAB +:+ "ps-pingdom-maintenance service started...";
           args := [] |};
        {| format := TAB +:+ "Maintenance ID: %d" +:+ TAB +:+
                     "Poll Interval: %d" +:+ TAB +:+ "Metrics port: %s" +:+
                     LF +:+ LF;
           args := [ArgInt maintenanceID; ArgInt pollInterval;
                    ArgString metricsPort] |} ].

(** [os.Getenv]: the value of the variable, empty when it is not set. *)
Definition Getenv (environ : gmap string string) (key : string) : string :=
  default EmptyString (environ !! key).

(** [getenvInt] *)
Definition getenvInt (environ : gmap string string) (key : string) : Z :=
  let s := Getenv environ key in
  match strconv.Atoi s with
  | None => 0
  | Some v => v
  end.

(** The call of [newEnv] in [main]. *)
Definition main_newEnv (environ : gmap string string) : Startup :=
  newEnv (Getenv environ "API_KEY")
         (getenvInt environ "MAINTENANCE_ID")
         (getenvInt environ "POLL_INTERVAL")
         (Getenv environ "METRICS_PORT").

(** ** The provider client *)

(** The element type of [PingdomChecks.Checks]. *)
Record Check := {
  Check_ID : Z;
  Check_Created : Z;
  Check_Name : string;
  Check_Hostname : string;
  Check_Resolution : Z;
  Check_Type : string;
  Check_Ipv6 : bool;
  Check_VerifyCertificate : bool;
  Check_Lasterrortime : Z;
  Check_Lasttesttime : Z;
  Check_Lastresponsetime : Z;
  Check_Status : string;
  Check_Maintenanceids : list string
}.

(** [PingdomChecks.Counts] *)
Record CheckCounts := {
  Counts_Total : Z;
  Counts_Limited : Z;
  Counts_Filtered : Z
}.

(** [PingdomChecks] *)
Record PingdomChecks := {
  Checks_Checks : list Check;
  Checks_Counts : CheckCounts
}.

(** The request the program builds: method, URL, the headers it adds, and
    the body of a [PUT]. *)
Record Request := {
  Method : string;
  URL : string;
  Header : list (string * string);
  ReqBody : option JObject
}.

(** The response [client.Do] hands back: the status code, the bytes
    [ioutil.ReadAll] gets from the body and the error it returns, if any. *)
Record Response := {
  StatusCode : Z;
  Body : string;
  ReadErr : option error
}.

(** What is observable of a run, in order: a timer fire received, a request
    sent, a line logged. *)
Inductive Event :=
| Fire
| Sent (req : Request)
| Logged (line : LogLine).

(** What the program does not own: the provider behind [client.Do], the
    clock behind [time.Now], and [json.Unmarshal] into the two response
    types.  The provider and the clock may answer by everything that
    happened before. *)
Record External := {
  Do : list Event -> Request -> result Response;
  Now : list Event -> time.Time;
  UnmarshalChecks : string -> result PingdomChecks;
  UnmarshalSchedule : string -> result PingdomMaintenanceSchedule
}.

(** The state of the process: the two gauges ([float64] of a length, kept
    as the length) and the events so far, the oldest first. *)
Record World := {
  slaTotal : Z;
  slaMaintenance : Z;
  trace : list Event
}.

(** The state monad of the process. *)
Definition M (A : Type) : Type := World -> A * World.

Definition ret {A : Type} (a : A) : M A := fun w => (a, w).

Definition bind {A B : Type} (c : M A) (k : A -> M B) : M B :=
  fun w => let '(a, w') := c w in k a w'.

Notation "'do' x <- c ; k" := (bind c (fun x => k))
  (at level 10, x name, c at level 100, k at level 200).
Notation "c ;; k" := (bind c (fun _ => k))
  (at level 100, k at level 200, right associativity).

(** The three updates of the state. *)
Definition withEvent (ev : Event) (w : World) : World :=
  {| slaTotal := slaTotal w;
     slaMaintenance := slaMaintenance w;
     trace := trace w ++ [ev] |}.

Definition withTotal (v : Z) (w : World) : World :=
  {| slaTotal := v;
     slaMaintenance := slaMaintenance w;
     trace := trace w |}.

Definition withMaintenance (v : Z) (w : World) : World :=
  {| slaTotal := slaTotal w;
     slaMaintenance := v;
     trace := trace w |}.

Definition emit (ev : Event) : M unit :=
  fun w => (tt, withEvent ev w).

(** [log.Printf], on the format and the arguments of the call. *)
Definition Printf (line : LogLine) : M unit :=
  emit (Logged line).

(** [slaTotal.Set] *)
Definition slaTotal_Set (v : Z) : M unit :=
  fun w => (tt, withTotal v w).

(** [slaMaintenance.Set] *)
Definition slaMaintenance_Set (v : Z) : M unit :=
  fun w => (tt, withMaintenance v w).

(** [client.Do]: the request goes out and the provider answers. *)
Definition client_Do (ext : External) (req : Request) : M (result Response) :=
  fun w => (Do ext (trace w) req, withEvent (Sent req) w).

(** [time.Now] *)
Definition time_Now (ext : External) : M time.Time :=
  fun w => (Now ext (trace w), w).

(** [resp.StatusCode >= 200 && resp.StatusCode < 300] *)
Definition statusOK (resp : Response) : bool :=
  (200 <=? StatusCode resp) && (StatusCode resp <? 300).

Definition checksURL : string :=
  "https://api.pingdom.com/api/3.1/checks?tags=sla".

(** [fmt.Sprintf(`https://api.pingdom.com/api/3.1/maintenance/%d`, id)] *)
Definition maintenanceURL (e : Env) : string :=
  "https://api.pingdom.com/api/3.1/maintenance/" +:+
  strconv.Itoa (maintenanceID e).

Definition bearer (e : Env) : string := "Bearer " +:+ apiKey e.

(** The request of [getPingdomChecks]. *)
Definition checksRequest (e : Env) : Request :=
  {| Method := "GET"; URL := checksURL;
     Header := [("Authorization"%string, bearer e)];
     ReqBody := None |}.

(** The request of [getPingdomMainenanceSchedule]. *)
Definition maintenanceRequest (e : Env) : Request :=
  {| Method := "GET"; URL := maintenanceURL e;
     Header := [("Authorization"%string, bearer e)];
     ReqBody := None |}.

(** The request of [updatePingdomMaintenanceSchedule]. *)
Definition updateRequest (e : Env) (json : JObject) : Request :=
  {| Method := "PUT"; URL := maintenanceURL e;
     Header := [("Authorization"%string, bearer e);
                ("Content-Type"%string, "application/json"%string)];
     ReqBody := Some json |}.

(** [errors.New(what + strconv.Itoa(resp.StatusCode))] *)
Definition statusError (what : string) (resp : Response) : error :=
  what +:+ strconv.Itoa (StatusCode resp).

(** [getPingdomChecks] *)
Definition getPingdomChecks (ext : External) (e : Env)
  : M (result PingdomChecks) :=
  let req := checksRequest e in
  do r <- client_Do ext req;
  match r with
  | Err err => ret (Err err)
  | Ok resp =>
      if negb (statusOK resp) then
        ret (Err (statusError
                    "GET Pingdom checks responded with status code: " resp))
      else
        let body := Body resp in
        match UnmarshalChecks ext body with
        | Err err =>
            slaTotal_Set 0 ;;
            ret (Err err)
        | Ok c =>
            slaTotal_Set (Z.of_nat (length (Checks_Checks c))) ;;
            ret (Ok c)
        end
  end.

(** [getPingdomMainenanceSchedule] *)
Definition getPingdomMainenanceSchedule (ext : External) (e : Env)
  : M (result PingdomMaintenanceSchedule) :=
  let req := maintenanceRequest e in
  do r <- client_Do ext req;
  match r with
  | Err err =>
      slaMaintenance_Set 0 ;;
      ret (Err err)
  | Ok resp =>
      if negb (statusOK resp) then
        ret (Err (statusError
                    "GET Pingdom maintenance responded with status code: "
                    resp))
      else
        let body := Body resp in
        match UnmarshalSchedule ext body with
        | Err err =>
            slaMaintenance_Set 0 ;;
            ret (Err err)
        | Ok m =>
            slaMaintenance_Set (Z.of_nat (length (uptimeOf m))) ;;
            ret (Ok m)
        end
  end.

(** The struct literal [schedule] of [updatePingdomMaintenanceSchedule],
    for the clock reading [t]. *)
Definition scheduleUpdate (t : time.Time) (m : PingdomMaintenanceSchedule)
  : MaintenanceScheduleUpdate :=
  let from := time.DateUnix (time.Year t) (time.Month t) (time.Day t) 15 0 0 in
  let to := time.DateUnix (time.Year t) (time.Month t) (time.Day t + 1) 6 0 0 in
  {| uDescription := Description (Maintenance m);
     uFrom := from;
     uTo := to;
     uRecurrencetype := Recurrencetype (Maintenance m);
     uRepeatevery := Repeatevery (Maintenance m);
     uEffectiveto := Effectiveto (Maintenance m);
     uUptimeids := intSliceToString (Uptime (Checks (Maintenance m)));
     uTmsids := intSliceToString (Tms (Checks (Maintenance m))) |}.

(** The two lines [updatePingdomMaintenanceSchedule] logs on success. *)
Definition putLine (json : JObject) : LogLine :=
  {| format := TAB +:+ "PUT: %s"; args := [ArgJSON json] |}.

Definition responseLine (response : string) : LogLine :=
  {| format := TAB +:+ "RESPONSE: %s"; args := [ArgBody response] |}.

(** [updatePingdomMaintenanceSchedule]; [None] is the nil error. *)
Definition updatePingdomMaintenanceSchedule (ext : External) (e : Env)
  (m : PingdomMaintenanceSchedule) : M (option error) :=
  do t <- time_Now ext;
  let schedule := scheduleUpdate t m in
  let json := Marshal schedule in
  let req := updateRequest e json in
  do r <- client_Do ext req;
  match r with
  | Err err => ret (Some err)
  | Ok resp =>
      if negb (statusOK resp) then
        ret (Some (statusError
                     "UPDATE Pingdom maintenance responded with status code: "
                     resp))
      else
        match ReadErr resp with
        | Some err => ret (Some err)
        | None =>
            let response := Body resp in
            Printf (putLine json) ;;
            Printf (responseLine response) ;;
            ret None
        end
  end.

(** [getUptimeIds] *)
Definition getUptimeIds (c : PingdomChecks) : list Z :=
  fold_left (fun i check => i ++ [Check_ID check]) (Checks_Checks c) [].

(** ** The scheduler *)

(** How a list of statements ends: it runs to its end, it executes [break],
    or the goroutine panics. *)
Inductive Ctl :=
| Next
| Break
| Panic.

(** The lines [pollAPI] logs. *)
Definition checksErrorLine (err : error) : LogLine :=
  {| format := TAB +:+ "Pingdom checks: [ERROR] - %s";
     args := [ArgError err] |}.

Definition maintenanceErrorLine (err : error) : LogLine :=
  {| format := TAB +:+ "Pingdom maintenance: [ERROR] - %s";
     args := [ArgError err] |}.

Definition updateErrorLine (err : error) : LogLine :=
  {| format := TAB +:+ "Pingdom update maintenance schedule: [ERROR] - %s";
     args := [ArgError err] |}.

Definition upToDateLine : LogLine :=
  {| format := TAB +:+ "Maintenance schedule up to date"; args := [] |}.

(** The body of [case <-ticker:] in [pollAPI]. *)
Definition tick (ext : External) (e : Env) : M Ctl :=
  do r <- getPingdomChecks ext e;
  match r with
  | Err err =>
      Printf (checksErrorLine err) ;;
      ret Break
  | Ok c =>
      let u := getUptimeIds c in
      do r <- getPingdomMainenanceSchedule ext e;
      match r with
      | Err err =>
          Printf (maintenanceErrorLine err) ;;
          ret Break
      | Ok m =>
          match checkMaintenanceSchedule m u with
          | None => ret Panic
          | Some (upToDate, schedule) =>
              if negb upToDate then
                do err <- updatePingdomMaintenanceSchedule ext e schedule;
                match err with
                | Some err =>
                    Printf (updateErrorLine err) ;;
                    ret Break
                | None => ret Next
                end
              else
                Printf upToDateLine ;;
                do _ <- getPingdomMainenanceSchedule ext e;
                ret Next
          end
      end
  end.

(** [select { case <-ticker: body }]: the statement waits for the timer to
    fire, runs the body, and a [break] in the body ends the [select]
    statement, nothing more. *)
Definition select_ticker (body : M Ctl) : M Ctl :=
  emit Fire ;;
  do c <- body;
  ret (match c with
       | Break => Next
       | c => c
       end).

(** Where a run of a [for { ... }] loop stands: its body has run as often
    as the timer fired and it waits for more, it was left by a [break], or
    the goroutine panicked (which ends the process). *)
Inductive LoopState :=
| Waiting
| Left
| Panicked.

(** [for { body }], as long as the timer fires: [fires] times. *)
Fixpoint for_loop (fires : nat) (body : M Ctl) : M LoopState :=
  match fires with
  | O => ret Waiting
  | S fires' =>
      do c <- body;
      match c with
      | Next => for_loop fires' body
      | Break => ret Left
      | Panic => ret Panicked
      end
  end.

(** An [int64] computed in [Z] wraps around. *)
Definition int64 (z : Z) : Z := (z + 2 ^ 63) mod 2 ^ 64 - 2 ^ 63.

(** [time.Second * time.Duration(e.pollInterval)], in nanoseconds. *)
Definition tickerPeriod (e : Env) : Z :=
  int64 (1000000000 * int64 (pollInterval e)).

(** [pollAPI], for as many timer fires as given.  [time.NewTicker] panics
    on a period that is not positive. *)
Definition pollAPI (ext : External) (e : Env) (fires : nat) : M LoopState :=
  if tickerPeriod e <=? 0 then ret Panicked
  else for_loop fires (select_ticker (tick ext e)).

(** The events of one tick, from the timer fire on: the five ways through
    the body of the [case].  An error, whichever of the three calls returns
    it, is logged and is the last event of its tick. *)
Inductive TickShape (e : Env) : list Event -> Prop :=
| checks_failed (err : error) :
    TickShape e [Fire; Sent (checksRequest e); Logged (checksErrorLine err)]
| window_failed (err : error) :
    TickShape e [Fire; Sent (checksRequest e); Sent (maintenanceRequest e);
                 Logged (maintenanceErrorLine err)]
| update_failed (json : JObject) (err : error) :
    TickShape e [Fire; Sent (checksRequest e); Sent (maintenanceRequest e);
                 Sent (updateRequest e json); Logged (updateErrorLine err)]
| window_updated (json : JObject) (response : string) :
    TickShape e [Fire; Sent (checksRequest e); Sent (maintenanceRequest e);
                 Sent (updateRequest e json); Logged (putLine json);
                 Logged (responseLine response)]
| window_up_to_date :
    TickShape e [Fire; Sent (checksRequest e); Sent (maintenanceRequest e);
                 Logged upToDateLine; Sent (maintenanceRequest e)].

Create HintDb tick.
#[global] Hint Constructors TickShape : tick.

(** Closes an equation between traces from the equations of the steps'
    traces among the hypotheses. *)
Ltac trace_steps :=
  simpl;
  repeat match goal with
         | H : trace _ = _ |- _ => rewrite H; clear H; simpl
         end;
  rewrite <- ?app_assoc; reflexivity.

(** ** What a run shows *)

(** The events a computation adds to the trace of the state it starts in. *)
Definition eventsOf {A : Type} (c : M A) (w : World) : list Event :=
  drop (length (trace w)) (trace (snd (c w))).

Definition requestOf (ev : Event) : option Request :=
  match ev with
  | Sent req => Some req
  | _ => None
  end.

Definition lineOf (ev : Event) : option LogLine :=
  match ev with
  | Logged line => Some line
  | _ => None
  end.

(** The requests it sends, the bodies of those that have one, and the lines
    it logs, each in order. *)
Definition sentBy {A : Type} (c : M A) (w : World) : list Request :=
  omap requestOf (eventsOf c w).

Definition payloadsBy {A : Type} (c : M A) (w : World) : list JObject :=
  omap ReqBody (sentBy c w).

Definition loggedBy {A : Type} (c : M A) (w : World) : list LogLine :=
  omap lineOf (eventsOf c w).

(** ** A provider, a clock and a configuration to run the program on *)

Definition checkOf (id : Z) : Check :=
  {| Check_ID := id; Check_Created := 1546300800;
     Check_Name := "web"; Check_Hostname := "example.org";
     Check_Resolution := 1; Check_Type := "http";
     Check_Ipv6 := false; Check_VerifyCertificate := true;
     Check_Lasterrortime := 0; Check_Lasttesttime := 1577800000;
     Check_Lastresponsetime := 120; Check_Status := "up";
     Check_Maintenanceids := [] |}.

Definition checksOf (ids : list Z) : PingdomChecks :=
  {| Checks_Checks := map checkOf ids;
     Checks_Counts := {| Counts_Total := Z.of_nat (length ids);
                         Counts_Limited := Z.of_nat (length ids);
                         Counts_Filtered := Z.of_nat (length ids) |} |}.

(** A provider that answers every request with the status [status] and
    whose bodies decode to the checks [ids] and to a window holding
    [uptime]; the clock shows the last day of 2019. *)
Definition providerOf (status : Z) (ids uptime : list Z) : External :=
  {| Do := fun _ _ => Ok {| StatusCode := status; Body := "{}";
                            ReadErr := None |};
     Now := fun _ => {| time.Year := 2019; time.Month := 12; time.Day := 31 |};
     UnmarshalChecks := fun _ => Ok (checksOf ids);
     UnmarshalSchedule := fun _ => Ok (windowOf uptime) |}.

Definition envOf (interval : Z) : Env :=
  {| apiKey := "secret"; maintenanceID := 42;
     pollInterval := interval; metricsPort := "9600" |}.

(** A process whose gauges show three checks. *)
Definition worldOf (total maintenance : Z) : World :=
  {| slaTotal := total; slaMaintenance := maintenance; trace := [] |}.

(** An environment that sets the key and a negative maintenance ID. *)
Definition negativeIdEnviron : gmap string string :=
  {[ "API_KEY"%string := "secret"%string;
     "MAINTENANCE_ID"%string := "-5"%string ]}.

(** A provider that cannot be reached: [client.Do] returns an error. *)
Definition unreachable : External :=
  {| Do := fun _ _ => Err "connection refused"%string;
     Now := fun _ => {| time.Year := 2019; time.Month := 12; time.Day := 31 |};
     UnmarshalChecks := fun _ => Ok (checksOf []);
     UnmarshalSchedule := fun _ => Ok (windowOf []) |}.

(** ** The older program, [src/main.go], as a process

    It runs once: configuration, the two fetches, the reconciler of
    [Module Legacy], and the update if an ID is missing.  Every error ends
    the process in [log.Fatal].  [getenvInt], [getUptimeIds] and
    [intSliceToString] are the same code as in the service, and so are the
    types of the payload; it has no gauges and reads no clock. *)
Module Oneshot.

(** [Env] *)
Record Env := {
  apiKey : string;
  maintenanceID : Z
}.

(** The state of the process: the requests sent and the lines logged, in
    order, and what was printed to the standard output. *)
Record Process := {
  events : list Event;
  stdout : list string
}.

(** A computation of the process; [None] when the process has exited. *)
Definition P (A : Type) : Type := Process -> option A * Process.

Definition ret {A : Type} (a : A) : P A := fun p => (Some a, p).

Definition bind {A B : Type} (c : P A) (k : A -> P B) : P B :=
  fun p =>
    match c p with
    | (Some a, p') => k a p'
    | (None, p') => (None, p')
    end.

(** [log.Fatal] and [log.Fatalf]: the line is logged and the process
    exits.  [log.Fatal] prints its operands one after the other: the first
    is kept as the format of the line, the second as its argument. *)
Definition Fatal {A : Type} (line : LogLine) : P A :=
  fun p => (None, {| events := events p ++ [Logged line];
                     stdout := stdout p |}).

(** [fmt.Println] *)
Definition Println (text : string) : P unit :=
  fun p => (Some tt, {| events := events p; stdout := stdout p ++ [text] |}).

(** [client.Do] *)
Definition client_Do (ext : External) (req : Request) : P (result Response) :=
  fun p => (Some (Do ext (events p) req),
            {| events := events p ++ [Sent req]; stdout := stdout p |}).

(** [newEnv] *)
Definition newEnv (apiKey : string) (maintenanceID : Z) : P Env :=
  if bool_decide (apiKey = EmptyString) then
    Fatal {| format := "Could not parse env API_KEY"; args := [] |}
  else if bool_decide (maintenanceID = 0) then
    Fatal {| format := "Could not parse env MAINTENANCE_ID"; args := [] |}
  else
    ret {| apiKey := apiKey; maintenanceID := maintenanceID |}.

Definition bearer (e : Env) : string := "Bearer " +:+ apiKey e.

Definition maintenanceURL (e : Env) : string :=
  "https://api.pingdom.com/api/3.1/maintenance/" +:+
  strconv.Itoa (maintenanceID e).

Definition checksRequest (e : Env) : Request :=
  {| Method := "GET"; URL := checksURL;
     Header := [("Authorization"%string, bearer e)];
     ReqBody := None |}.

Definition maintenanceRequest (e : Env) : Request :=
  {| Method := "GET"; URL := maintenanceURL e;
     Header := [("Authorization"%string, bearer e)];
     ReqBody := None |}.

Definition updateRequest (e : Env) (json : JObject) : Request :=
  {| Method := "PUT"; URL := maintenanceURL e;
     Header := [("Authorization"%string, bearer e);
                ("Content-Type"%string, "application/json"%string)];
     ReqBody := Some json |}.

(** The lines of [log.Fatal]. *)
Definition checksFatal (cause : LogArg) : LogLine :=
  {| format := "Pingdom checks:" +:+ LF +:+ "[ERROR] - "; args := [cause] |}.

Definition maintenanceFatal (cause : LogArg) : LogLine :=
  {| format := "Pingdom maintenance:" +:+ LF +:+ "[ERROR] - ";
     args := [cause] |}.

Definition updateFatal (cause : LogArg) : LogLine :=
  {| format := "Pingdom update maintenance schedule:" +:+ LF +:+ "[ERROR] - ";
     args := [cause] |}.

(** [getPingdomChecks]: it does not look at the status of the response, and
    the error it returns is always nil. *)
Definition getPingdomChecks (ext : External) (e : Env)
  : P (result PingdomChecks) :=
  let req := checksRequest e in
  bind (client_Do ext req) (fun r =>
  match r with
  | Err err => Fatal (checksFatal (ArgError err))
  | Ok resp =>
      let body := Body resp in
      match UnmarshalChecks ext body with
      | Err err => Fatal (checksFatal (ArgError err))
      | Ok c => ret (Ok c)
      end
  end).

(** [getPingdomMainenanceSchedule] *)
Definition getPingdomMainenanceSchedule (ext : External) (e : Env)
  : P (result PingdomMaintenanceSchedule) :=
  let req := maintenanceRequest e in
  bind (client_Do ext req) (fun r =>
  match r with
  | Err err => Fatal (maintenanceFatal (ArgError err))
  | Ok resp =>
      let body := Body resp in
      match UnmarshalSchedule ext body with
      | Err err => Fatal (maintenanceFatal (ArgError err))
      | Ok m => ret (Ok m)
      end
  end).

(** The struct literal [schedule] of [updatePingdomMaintenanceSchedule]:
    the interval is the window's own. *)
Definition scheduleUpdate (m : PingdomMaintenanceSchedule)
  : MaintenanceScheduleUpdate :=
  {| uDescription := Description (Maintenance m);
     uFrom := From (Maintenance m);
     uTo := To (Maintenance m);
     uRecurrencetype := Recurrencetype (Maintenance m);
     uRepeatevery := Repeatevery (Maintenance m);
     uEffectiveto := Effectiveto (Maintenance m);
     uUptimeids := intSliceToString (Uptime (Checks (Maintenance m)));
     uTmsids := intSliceToString (Tms (Checks (Maintenance m))) |}.

(** [updatePingdomMaintenanceSchedule] *)
Definition updatePingdomMaintenanceSchedule (ext : External) (e : Env)
  (m : PingdomMaintenanceSchedule) : P unit :=
  let schedule := scheduleUpdate m in
  let json := Marshal schedule in
  let req := updateRequest e json in
  bind (client_Do ext req) (fun r =>
  match r with
  | Err err => Fatal (updateFatal (ArgError err))
  | Ok resp =>
      if bool_decide (StatusCode resp <> 200) then
        Fatal (updateFatal
                 (ArgString ("Pingdom responded with status code " +:+
                             strconv.Itoa (StatusCode resp))))
      else
        match ReadErr resp with
        | Some err => Fatal (updateFatal (ArgError err))
        | None => Println (Body resp)
        end
  end).

(** [main] *)
Definition main (environ : gmap string string) (ext : External) : P unit :=
  bind (newEnv (Getenv environ "API_KEY")
               (getenvInt environ "MAINTENANCE_ID")) (fun e =>
  bind (getPingdomChecks ext e) (fun r =>
  match r with
  | Err err => Fatal {| format := EmptyString; args := [ArgError err] |}
  | Ok c =>
      let u := getUptimeIds c in
      bind (getPingdomMainenanceSchedule ext e) (fun r =>
      match r with
      | Err err => Fatal {| format := EmptyString; args := [ArgError err] |}
      | Ok m =>
          let '(upToDate, schedule) := Legacy.checkMaintenanceSchedule m u in
          if negb upToDate then
            updatePingdomMaintenanceSchedule ext e schedule
          else
            Println "Nothing to do... Exiting."
      end)
  end)).

(** A process that has done nothing yet. *)
Definition start : Process := {| events := []; stdout := [] |}.

(** The [Env] that [main] works with once [newEnv] has returned. *)
Definition configured (environ : gmap string string) : Env :=
  {| apiKey := Getenv environ "API_KEY";
     maintenanceID := getenvInt environ "MAINTENANCE_ID" |}.

(** The requests a process has sent and the lines it has logged. *)
Definition sent (p : Process) : list Request := omap requestOf (events p).

Definition logged (p : Process) : list LogLine := omap lineOf (events p).

End Oneshot.

(** ** Predicates on runs *)

(** Both gauges show a count. *)
Definition gaugesAreCounts (w : World) : Prop :=
  0 <= slaTotal w /\ 0 <= slaMaintenance w.

(** A request of the service as the provider expects it: it carries the
    bearer token of the configuration and goes to the list of checks or to
    the configured window; it has a body, announced as JSON, exactly when it
    is a [PUT], and that goes to the window. *)
Definition authorised (e : Env) (req : Request) : Prop :=
  In ("Authorization"%string, bearer e) (Header req) /\
  (URL req = checksURL \/ URL req = maintenanceURL e) /\
  (Method req = "GET"%string /\ ReqBody req = None \/
   Method req = "PUT"%string /\ URL req = maintenanceURL e /\
   is_Some (ReqBody req) /\
   In ("Content-Type"%string, "application/json"%string) (Header req)).

(** The two lines [newEnv] logs for a configuration. *)
Definition startupLines (e : Env) : list LogLine :=
  [ {| format := TAB +:+ "ps-pingdom-maintenance service started...";
       args := [] |};
    {| format := TAB +:+ "Maintenance ID: %d" +:+ TAB +:+
                 "Poll Interval: %d" +:+ TAB +:+ "Metrics port: %s" +:+
                 LF +:+ LF;
       args := [ArgInt (maintenanceID e); ArgInt (pollInterval e);
                ArgString (metricsPort e)] |} ].

(** An environment that sets the key and the maintenance ID 42. *)
Definition plainEnviron : gmap string string :=
  {[ "API_KEY"%string := "secret"%string;
     "MAINTENANCE_ID"%string := "42"%string ]}.

(** The response of [providerOf]. *)
Definition responseOf (status : Z) : Response :=
  {| StatusCode := status; Body := "{}"; ReadErr := None |}.

(** Close the description of how a run of the older program ends, given
    the requests it sent: in [log.Fatal], or normally. *)
Ltac exits_after reqs :=
  exists reqs; simpl;
  split; [lia|]; split; [lia|]; split; [tauto|];
  right; eexists; reflexivity.

Ltac returns_after reqs :=
  exists reqs; simpl;
  split; [lia|]; split; [lia|]; split; [tauto|];
  left; eexists; reflexivity.

(** * Part II: theorems *)

(** ** The model on concrete inputs *)

Example compareSlice_equal : compareSlice [1; 2; 3] [1; 2; 3] = Some true.
Proof. reflexivity. Qed.

Example compareSlice_reordered : compareSlice [1; 2] [2; 1] = Some false.
Proof. reflexivity. Qed.

Example compareSlice_prefix : compareSlice [1; 2] [1; 2; 3] = Some false.
Proof. reflexivity. Qed.

Example Itoa_examples :
  map strconv.Itoa [0; 7; -12; 1234567]
    = ["0"; "7"; "-12"; "1234567"]%string.
Proof. reflexivity. Qed.

Example Atoi_examples :
  map strconv.Atoi
      ["300"; "-12"; "+7"; "007"; ""; "-"; "12a"; "1 2";
       "9223372036854775807"; "9223372036854775808"]%string
    = [Some 300; Some (-12); Some 7; Some 7; None; None; None; None;
       Some 9223372036854775807; None].
Proof. reflexivity. Qed.

Example intSliceToString_examples :
  map intSliceToString [[]; [7]; [5; 9]; [10; 20; 30]]
    = [""; "7"; "5,9"; "10,20,30"]%string.
Proof. reflexivity. Qed.

Example DateUnix_epoch : time.DateUnix 1970 1 1 0 0 0 = 0.
Proof. reflexivity. Qed.

Example DateUnix_leap_day : time.DateUnix 2024 2 29 15 0 0 = 1709218800.
Proof. reflexivity. Qed.

Example DateUnix_day_past_february :
  time.DateUnix 2024 2 30 6 0 0 = time.DateUnix 2024 3 1 6 0 0 /\
  time.DateUnix 2023 2 29 6 0 0 = time.DateUnix 2023 3 1 6 0 0.
Proof. split; reflexivity. Qed.

(** A tick against a provider that lists the checks 10, 20 and 30 while the
    window holds 10 and 20: the update goes out with all three IDs. *)
Example tick_adds_new_check :
  fst (tick (providerOf 200 [10; 20; 30] [10; 20]) (envOf 300) (worldOf 0 0))
    = Next /\
  map Method
      (sentBy (tick (providerOf 200 [10; 20; 30] [10; 20]) (envOf 300))
              (worldOf 0 0))
    = ["GET"; "GET"; "PUT"]%string /\
  map (fun payload => member payload "uptimeids")
      (payloadsBy (tick (providerOf 200 [10; 20; 30] [10; 20]) (envOf 300))
                  (worldOf 0 0))
    = [Some (JString "10,20,30")].
Proof. repeat split; vm_compute; reflexivity. Qed.

(** ** Properties of the reconciler *)

Section Reconciler.

Implicit Types (a b u : list Z) (m : PingdomMaintenanceSchedule).

(** The loop started at [i] compares [a] with the part of [b] from [i] on,
    and does not panic when that part is as long as [a]. *)
Lemma compareSlice_range_drop a : forall b i,
  length a = length (drop i b) ->
  compareSlice_range a b i = Some (bool_decide (a = drop i b)).
Proof.
  induction a as [|v a IH]; intros b i Hlen; simpl in *.
  - destruct (drop i b) eqn:E; [|discriminate].
    by rewrite bool_decide_eq_true_2.
  - destruct (drop i b) as [|w rest] eqn:E; [discriminate|].
    assert (Hw : b !! i = Some w).
    { rewrite <- (Nat.add_0_r i), <- lookup_drop, E. done. }
    assert (Hrest : drop (S i) b = rest).
    { replace (S i) with (i + 1)%nat by lia.
      rewrite <- drop_drop, E. done. }
    rewrite Hw. case_bool_decide as Hvw.
    + rewrite bool_decide_eq_false_2; [done|]. congruence.
    + assert (v = w) as -> by (destruct (decide (v = w)); tauto).
      rewrite IH by (rewrite Hrest; simpl in Hlen; lia).
      rewrite Hrest. f_equal. apply bool_decide_ext.
      split; intros; congruence.
Qed.

(** [compareSlice] never panics and decides equality of the two lists. *)
Lemma compareSlice_spec a b :
  compareSlice a b = Some (bool_decide (a = b)).
Proof.
  unfold compareSlice. case_bool_decide as Hlen.
  - rewrite bool_decide_eq_false_2; [done|]. congruence.
  - assert (length a = length b) by lia.
    by rewrite compareSlice_range_drop by (by rewrite drop_0).
Qed.

Lemma checkMaintenanceSchedule_spec m u :
  checkMaintenanceSchedule m u =
    Some (if bool_decide (uptimeOf m = u) then (true, m)
          else (false, set_Uptime m u)).
Proof.
  unfold checkMaintenanceSchedule. rewrite compareSlice_spec. simpl.
  by case_bool_decide.
Qed.

Lemma uptimeOf_set_Uptime m u : uptimeOf (set_Uptime m u) = u.
Proof. reflexivity. Qed.

Lemma tmsOf_set_Uptime m u : tmsOf (set_Uptime m u) = tmsOf m.
Proof. reflexivity. Qed.

End Reconciler.

(** *** The reconciler decides positional equality (C1, C7) *)

(** Two lists are equal when they are as long and agree at every index. *)
Lemma positional_eq (a b : list Z) :
  a = b <-> length a = length b /\ forall i : nat, a !! i = b !! i.
Proof.
  split.
  - by intros ->.
  - intros [_ Hall]. by apply list_eq.
Qed.

(** C1: for every window [W] and desired sequence [D],
    [checkMaintenanceSchedule] returns (it does not panic); it returns
    [upToDate = true] exactly when the window's uptime list and [D] are as
    long and agree at every position, and then the window as it was;
    otherwise it returns [upToDate = false] and a window whose uptime list is
    [D] exactly (and which differs from [W] in nothing else). *)
Theorem checkMaintenanceSchedule_positional
  (W : PingdomMaintenanceSchedule) (D : list Z) :
  exists (upToDate : bool) (window : PingdomMaintenanceSchedule),
    checkMaintenanceSchedule W D = Some (upToDate, window) /\
    (upToDate = true <->
       length (uptimeOf W) = length D /\
       forall i : nat, uptimeOf W !! i = D !! i) /\
    (upToDate = true -> window = W) /\
    (upToDate = false -> uptimeOf window = D /\ window = set_Uptime W D).
Proof.
  rewrite checkMaintenanceSchedule_spec.
  case_bool_decide as Heq.
  - exists true, W. repeat split; try done.
    + by apply positional_eq.
    + by apply positional_eq.
  - exists false, (set_Uptime W D). repeat split; try done.
    intros Hpos. exfalso. apply Heq. by apply positional_eq.
Qed.

(** The same IDs in another order count as drift. *)
Lemma checkMaintenanceSchedule_reordered (W : PingdomMaintenanceSchedule) :
  uptimeOf W = [1; 2] ->
  checkMaintenanceSchedule W [2; 1] = Some (false, set_Uptime W [2; 1]).
Proof.
  intros HW. rewrite checkMaintenanceSchedule_spec, HW.
  by rewrite bool_decide_eq_false_2.
Qed.

(** C7: the window [checkMaintenanceSchedule] returns for [W] and [D] is up
    to date with respect to [D]: a second call on it returns [true] (and the
    same window). *)
Theorem checkMaintenanceSchedule_fixed_point
  (W : PingdomMaintenanceSchedule) (D : list Z) :
  exists (upToDate : bool) (window : PingdomMaintenanceSchedule),
    checkMaintenanceSchedule W D = Some (upToDate, window) /\
    checkMaintenanceSchedule window D = Some (true, window).
Proof.
  rewrite checkMaintenanceSchedule_spec.
  case_bool_decide as Heq.
  - exists true, W. split; [done|].
    rewrite checkMaintenanceSchedule_spec. by rewrite bool_decide_eq_true_2.
  - exists false, (set_Uptime W D). split; [done|].
    rewrite checkMaintenanceSchedule_spec, uptimeOf_set_Uptime.
    by rewrite bool_decide_eq_true_2.
Qed.

(** *** The older reconciler against the current one (C10) *)

Lemma set_Uptime_same (m : PingdomMaintenanceSchedule) :
  set_Uptime m (uptimeOf m) = m.
Proof. by destruct m as [[? ? ? ? ? ? ? ? ? ? [? ?]]]. Qed.

Lemma set_Uptime_twice (m : PingdomMaintenanceSchedule) (u v : list Z) :
  set_Uptime (set_Uptime m u) v = set_Uptime m v.
Proof. reflexivity. Qed.

(** The loop of the older [checkMaintenanceSchedule]: the flag goes down
    when an ID is missing, and the missing IDs are appended. *)
Lemma legacy_fold (u : list Z) : forall (b : bool) (m : PingdomMaintenanceSchedule),
  fold_left Legacy.check_step u (b, m) =
    (b && bool_decide (missing (uptimeOf m) u = []),
     set_Uptime m (uptimeOf m ++ missing (uptimeOf m) u)).
Proof.
  induction u as [|check u IH]; intros b m; simpl.
  - rewrite app_nil_r, set_Uptime_same. by rewrite andb_true_r.
  - destruct (Legacy.contains (uptimeOf m) check) eqn:Hc; simpl.
    + apply IH.
    + rewrite IH, set_Uptime_twice, uptimeOf_set_Uptime.
      rewrite <- app_assoc. simpl.
      by rewrite andb_false_r.
Qed.

Lemma legacy_checkMaintenanceSchedule_spec
  (m : PingdomMaintenanceSchedule) (u : list Z) :
  Legacy.checkMaintenanceSchedule m u =
    (bool_decide (missing (uptimeOf m) u = []),
     set_Uptime m (uptimeOf m ++ missing (uptimeOf m) u)).
Proof. unfold Legacy.checkMaintenanceSchedule. by rewrite legacy_fold. Qed.

(** [contains] decides membership. *)
Lemma legacy_contains_elem_of (l : list Z) (x : Z) :
  Legacy.contains l x = true <-> x ∈ l.
Proof.
  induction l as [|y l IH]; simpl.
  - split; [discriminate|]. by intros ?%elem_of_nil.
  - case_bool_decide as Hy.
    + subst. split; [|done]. intros _. by left.
    + rewrite IH. split.
      * intros. by right.
      * intros [?|?]%elem_of_cons; [congruence|done].
Qed.

(** Nothing is missing exactly when every desired ID is in the list. *)
Lemma missing_nil_iff (u : list Z) : forall have : list Z,
  missing have u = [] <-> forall x, x ∈ u -> x ∈ have.
Proof.
  induction u as [|check u IH]; intros have; simpl.
  - split; [|done]. by intros _ x ?%elem_of_nil.
  - destruct (Legacy.contains have check) eqn:Hc.
    + rewrite IH. apply legacy_contains_elem_of in Hc. split.
      * intros H x Hx. apply elem_of_cons in Hx as [->|Hx]; auto.
      * intros H x Hx. apply H. by right.
    + split; [discriminate|]. intros H.
      assert (check ∈ have) as Hin by (apply H; by left).
      apply legacy_contains_elem_of in Hin. congruence.
Qed.

(** The older program reports up to date exactly when every desired ID is
    somewhere in the window's list, whatever the order and whatever else
    the list holds. *)
Lemma legacy_upToDate_iff (m : PingdomMaintenanceSchedule) (u : list Z) :
  fst (Legacy.checkMaintenanceSchedule m u) = true <->
  forall x, x ∈ u -> x ∈ uptimeOf m.
Proof.
  rewrite legacy_checkMaintenanceSchedule_spec. simpl.
  by rewrite bool_decide_eq_true, missing_nil_iff.
Qed.

(** The claim as stated fails: on the IDs [1, 2] in the window and [2, 1]
    desired, the older program answers up to date and keeps the window, the
    current one answers not up to date and replaces the list. *)
Lemma legacy_differs_on_reordering :
  Legacy.checkMaintenanceSchedule (windowOf [1; 2]) [2; 1]
    = (true, windowOf [1; 2]) /\
  checkMaintenanceSchedule (windowOf [1; 2]) [2; 1]
    = Some (false, windowOf [2; 1]) /\
  Some (Legacy.checkMaintenanceSchedule (windowOf [1; 2]) [2; 1])
    <> checkMaintenanceSchedule (windowOf [1; 2]) [2; 1].
Proof. repeat split. discriminate. Qed.

(** C10, amended: the two versions of [checkMaintenanceSchedule] return the
    same pair exactly for the windows [W] and sequences [D] where [D] is
    [W]'s uptime list followed by the IDs of [D] that the list lacks, each
    once, in the order of their first occurrence. *)
Theorem legacy_agrees_iff (W : PingdomMaintenanceSchedule) (D : list Z) :
  Some (Legacy.checkMaintenanceSchedule W D) = checkMaintenanceSchedule W D
  <-> uptimeOf W ++ missing (uptimeOf W) D = D.
Proof.
  rewrite legacy_checkMaintenanceSchedule_spec, checkMaintenanceSchedule_spec.
  destruct (decide (uptimeOf W = D)) as [Heq|Heq].
  - rewrite (bool_decide_eq_true_2 (uptimeOf W = D)) by done. split.
    + intros H%(inj Some)%pair_equal_spec. destruct H as [Hflag _].
      apply bool_decide_eq_true in Hflag.
      by rewrite Hflag, app_nil_r.
    + intros Happ.
      assert (Hnone : missing (uptimeOf W) D = []).
      { apply (app_inv_head (uptimeOf W)). by rewrite app_nil_r, Happ. }
      rewrite Hnone, app_nil_r, set_Uptime_same.
      by rewrite bool_decide_eq_true_2.
  - rewrite (bool_decide_eq_false_2 (uptimeOf W = D)) by done. split.
    + intros H%(inj Some)%pair_equal_spec. destruct H as [_ Hwin].
      apply (f_equal uptimeOf) in Hwin.
      by rewrite !uptimeOf_set_Uptime in Hwin.
    + intros Happ. rewrite Happ.
      rewrite bool_decide_eq_false_2; [done|].
      intros Hnone. apply Heq. by rewrite Hnone, app_nil_r in Happ.
Qed.

(** In particular the two agree on a window that is up to date in the
    current sense, and on a window that only lacks a tail of new IDs. *)
Lemma legacy_agrees_when_equal (W : PingdomMaintenanceSchedule) :
  Some (Legacy.checkMaintenanceSchedule W (uptimeOf W))
    = checkMaintenanceSchedule W (uptimeOf W).
Proof.
  rewrite legacy_checkMaintenanceSchedule_spec, checkMaintenanceSchedule_spec.
  assert (H : missing (uptimeOf W) (uptimeOf W) = []) by by apply missing_nil_iff.
  rewrite H, app_nil_r, set_Uptime_same.
  by rewrite !bool_decide_eq_true_2.
Qed.

Example legacy_agrees_on_new_tail :
  Some (Legacy.checkMaintenanceSchedule (windowOf [10; 20]) [10; 20; 30])
    = checkMaintenanceSchedule (windowOf [10; 20]) [10; 20; 30].
Proof. reflexivity. Qed.

(** *** Strings *)

Lemma append_cons (c : ascii) (s1 s2 : string) :
  String c s1 +:+ s2 = String c (s1 +:+ s2).
Proof. reflexivity. Qed.

Lemma append_nil_r (s : string) : s +:+ EmptyString = s.
Proof. induction s as [|c s IH]; [done|]. by rewrite append_cons, IH. Qed.

Lemma append_assoc (s1 s2 s3 : string) :
  (s1 +:+ s2) +:+ s3 = s1 +:+ (s2 +:+ s3).
Proof.
  induction s1 as [|c s1 IH]; [done|]. by rewrite !append_cons, IH.
Qed.

Lemma chars_append (s1 s2 : string) :
  list_ascii_of_string (s1 +:+ s2) =
  list_ascii_of_string s1 ++ list_ascii_of_string s2.
Proof.
  induction s1 as [|c s1 IH]; [done|].
  rewrite append_cons. simpl. by rewrite IH.
Qed.

(** A string that does not hold the separator is one piece, and such a
    string in front of a separator is the first piece. *)
Lemma Split_piece (sep : ascii) (s : string) :
  sep ∉ list_ascii_of_string s -> strings.Split s sep = [s].
Proof.
  induction s as [|c s IH]; simpl; intros Hnot; [done|].
  apply not_elem_of_cons in Hnot as [Hc Hs].
  destruct (Ascii.eqb_spec c sep) as [->|_]; [done|].
  by rewrite IH.
Qed.

Lemma Split_first (sep : ascii) (s rest : string) :
  sep ∉ list_ascii_of_string s ->
  strings.Split (s +:+ String sep rest) sep = s :: strings.Split rest sep.
Proof.
  induction s as [|c s IH]; intros Hnot.
  - simpl. by rewrite Ascii.eqb_refl.
  - apply not_elem_of_cons in Hnot as [Hc Hs].
    rewrite append_cons. simpl.
    destruct (Ascii.eqb_spec c sep) as [->|_]; [done|].
    by rewrite IH.
Qed.

(** *** [strings.Join] and the loop of [intSliceToString] *)

(** [strings.Join] is the join of the Standard Library. *)
Lemma Join_concat (sep : string) (elems : list string) :
  strings.Join elems sep = String.concat sep elems.
Proof.
  destruct elems as [|first rest]; [done|]. simpl.
  revert first. induction rest as [|s rest IH]; intros first; [done|].
  simpl fold_left. rewrite IH.
  destruct rest; simpl; by rewrite ?append_assoc.
Qed.

(** The loop that appends one text per number builds the list of the
    texts, in the order of the numbers. *)
Lemma valuesText_map (v : list Z) : forall acc : list string,
  fold_left (fun valuesText number => valuesText ++ [strconv.Itoa number]) v acc
  = acc ++ map strconv.Itoa v.
Proof.
  induction v as [|n v IH]; intros acc; simpl.
  - by rewrite app_nil_r.
  - by rewrite IH, <- app_assoc.
Qed.

Lemma intSliceToString_concat (v : list Z) :
  intSliceToString v = String.concat "," (map strconv.Itoa v).
Proof.
  unfold intSliceToString. by rewrite valuesText_map, Join_concat.
Qed.

(** Splitting a join of pieces free of the separator gives the pieces. *)
Lemma Split_concat (sep : ascii) (l : list string) :
  l <> [] ->
  Forall (fun s => sep ∉ list_ascii_of_string s) l ->
  strings.Split (String.concat (String sep EmptyString) l) sep = l.
Proof.
  induction l as [|s l IH]; [done|]. intros _ Hall.
  apply Forall_cons in Hall as [Hs Hl].
  destruct l as [|s' l].
  - simpl. by apply Split_piece.
  - change (String.concat (String sep EmptyString) (s :: s' :: l))
      with (s +:+ String sep EmptyString +:+
            String.concat (String sep EmptyString) (s' :: l)).
    rewrite append_cons. change (EmptyString +:+ ?x) with x.
    rewrite Split_first by done. by rewrite IH.
Qed.

(** *** The text of a number *)

Lemma string_of_uint_digits (d : Decimal.uint) :
  Forall (fun c => strconv.isDigit c = true)
         (list_ascii_of_string (NilEmpty.string_of_uint d)).
Proof.
  induction d; simpl; constructor; done.
Qed.

Lemma Itoa_chars (i : Z) :
  Forall (fun c => strconv.isNumberChar c = true)
         (list_ascii_of_string (strconv.Itoa i)).
Proof.
  assert (Hd : forall d, Forall (fun c => strconv.isNumberChar c = true)
             (list_ascii_of_string (NilZero.string_of_uint d))).
  { intros d. eapply Forall_impl; [|].
    - destruct d; try apply string_of_uint_digits.
      repeat constructor.
    - intros c Hc. unfold strconv.isNumberChar. by rewrite Hc. }
  unfold strconv.Itoa. destruct (Z.to_int i) as [d|d]; simpl.
  - apply Hd.
  - constructor; [done|apply Hd].
Qed.

(** No text of a number holds a comma. *)
Lemma Itoa_no_comma (i : Z) :
  ","%char ∉ list_ascii_of_string (strconv.Itoa i).
Proof.
  intros Hin. pose proof (Itoa_chars i) as Hall.
  rewrite Forall_forall in Hall. by apply Hall in Hin.
Qed.

Lemma string_of_uint_head (d : Decimal.uint) :
  d <> Decimal.Nil ->
  exists c rest, NilZero.string_of_uint d = String c rest /\
                 strconv.isDigit c = true.
Proof.
  destruct d; [done|..]; intros _; eexists _, _; split; reflexivity.
Qed.

(** On a text that starts with a digit [Atoi] reads digits only. *)
Lemma Atoi_unsigned (c : ascii) (rest : string) :
  strconv.isDigit c = true ->
  strconv.Atoi (String c rest) =
    (d ← NilZero.uint_of_string (String c rest); strconv.checkInt (Z.of_uint d)).
Proof.
  intros Hc. unfold strconv.Atoi.
  destruct (Ascii.eqb_spec c "-") as [->|_]; [done|].
  destruct (Ascii.eqb_spec c "+") as [->|_]; [done|].
  reflexivity.
Qed.

Lemma of_uint_to_uint (p : positive) : Z.of_uint (Pos.to_uint p) = Z.pos p.
Proof.
  unfold Z.of_uint. by rewrite DecimalPos.Unsigned.of_to.
Qed.

(** The text of a number reads back as the number: [Atoi] undoes [Itoa] on
    every [int]. *)
Lemma Atoi_Itoa (i : Z) :
  strconv.inInt i = true -> strconv.Atoi (strconv.Itoa i) = Some i.
Proof.
  intros Hin. unfold strconv.Itoa.
  pose proof DecimalPos.Unsigned.to_uint_nonnil as Hnn.
  destruct i as [|p|p]; simpl.
  - reflexivity.
  - destruct (string_of_uint_head (Pos.to_uint p) (Hnn p)) as (c & rest & Hs & Hc).
    rewrite Hs, Atoi_unsigned by done. rewrite <- Hs.
    rewrite NilZero.usu by done. simpl.
    rewrite of_uint_to_uint. unfold strconv.checkInt. by rewrite Hin.
  - unfold strconv.Atoi. simpl.
    rewrite NilZero.usu by done. simpl.
    rewrite of_uint_to_uint. unfold strconv.checkInt.
    change (- Z.pos p) with (Z.neg p). by rewrite Hin.
Qed.

(** *** Runs of the provider client *)

Lemma eventsOf_app {A : Type} (c : M A) (w : World) (evs : list Event) :
  trace (snd (c w)) = trace w ++ evs -> eventsOf c w = evs.
Proof. unfold eventsOf. intros ->. by rewrite drop_app_length. Qed.

Lemma requests_of_lines (lines : list LogLine) :
  omap requestOf (map Logged lines) = [].
Proof. induction lines as [|l lines IH]; [done|]. by cbn. Qed.

(** [updatePingdomMaintenanceSchedule], case by case. *)
Lemma update_run (ext : External) (e : Env) (m : PingdomMaintenanceSchedule)
  (w : World) :
  let json := Marshal (scheduleUpdate (Now ext (trace w)) m) in
  let w1 := withEvent (Sent (updateRequest e json)) w in
  updatePingdomMaintenanceSchedule ext e m w =
    match Do ext (trace w) (updateRequest e json) with
    | Err err => (Some err, w1)
    | Ok resp =>
        if statusOK resp then
          match ReadErr resp with
          | Some err => (Some err, w1)
          | None =>
              (None, withEvent (Logged (responseLine (Body resp)))
                       (withEvent (Logged (putLine json)) w1))
          end
        else
          (Some (statusError
                   "UPDATE Pingdom maintenance responded with status code: "
                   resp), w1)
    end.
Proof.
  unfold updatePingdomMaintenanceSchedule, bind, time_Now, client_Do. simpl.
  destruct (Do ext (trace w) _) as [resp|err]; [|done].
  destruct (statusOK resp); simpl; [|done].
  by destruct (ReadErr resp).
Qed.

(** Every execution sends one request, after reading the clock and before
    anything is logged; its body is the marshalled struct literal. *)
Lemma update_events (ext : External) (e : Env) (m : PingdomMaintenanceSchedule)
  (w : World) :
  let json := Marshal (scheduleUpdate (Now ext (trace w)) m) in
  exists lines : list LogLine,
    eventsOf (updatePingdomMaintenanceSchedule ext e m) w
      = Sent (updateRequest e json) :: map Logged lines /\
    (lines = [] \/
     exists response, lines = [putLine json; responseLine response]).
Proof.
  intros json.
  pose proof (update_run ext e m w) as Hrun. simpl in Hrun. fold json in Hrun.
  destruct (Do ext (trace w) _) as [resp|err].
  - destruct (statusOK resp).
    + destruct (ReadErr resp).
      * exists []. split; [|by left]. apply eventsOf_app. by rewrite Hrun.
      * exists [putLine json; responseLine (Body resp)]. split.
        -- apply eventsOf_app. rewrite Hrun. simpl. by rewrite <- !app_assoc.
        -- right. by eexists.
    + exists []. split; [|by left]. apply eventsOf_app. by rewrite Hrun.
  - exists []. split; [|by left]. apply eventsOf_app. by rewrite Hrun.
Qed.

Lemma update_payload (ext : External) (e : Env) (m : PingdomMaintenanceSchedule)
  (w : World) :
  payloadsBy (updatePingdomMaintenanceSchedule ext e m) w
    = [Marshal (scheduleUpdate (Now ext (trace w)) m)].
Proof.
  unfold payloadsBy, sentBy.
  destruct (update_events ext e m w) as (lines & -> & _).
  cbn. by rewrite requests_of_lines.
Qed.

(** *** The payload of the update (C5, C6) *)

(** The reconciler changes the uptime list and nothing else. *)
Lemma checkMaintenanceSchedule_frame (m : PingdomMaintenanceSchedule) (D : list Z) :
  exists (upToDate : bool) (window : PingdomMaintenanceSchedule),
    checkMaintenanceSchedule m D = Some (upToDate, window) /\
    window = set_Uptime m D.
Proof.
  rewrite checkMaintenanceSchedule_spec. case_bool_decide as Heq.
  - exists true, m. split; [done|]. by rewrite <- Heq, set_Uptime_same.
  - by exists false, (set_Uptime m D).
Qed.

(** C5: whatever window [m] is passed to [updatePingdomMaintenanceSchedule],
    it sends one payload; the members [description], [recurrencetype],
    [repeatevery] and [effectiveto] are [m]'s fields, [tmsids] is the text of
    [m]'s TMS list, and the payload has the eight members of the restricted
    subset and no other ([duration], [durationunit] and [dayofweekinmonth]
    are not there).  The window the reconciler hands over has the fetched
    window's values in all the fields that are passed through, the TMS list
    among them. *)
Theorem update_payload_passes_through (ext : External) (e : Env)
  (m : PingdomMaintenanceSchedule) (w : World) :
  (exists payload : JObject,
     payloadsBy (updatePingdomMaintenanceSchedule ext e m) w = [payload] /\
     member payload "description"
       = Some (JString (Description (Maintenance m))) /\
     member payload "recurrencetype"
       = Some (JString (Recurrencetype (Maintenance m))) /\
     member payload "repeatevery"
       = Some (JNumber (Repeatevery (Maintenance m))) /\
     member payload "effectiveto"
       = Some (JNumber (Effectiveto (Maintenance m))) /\
     member payload "tmsids" = Some (JString (intSliceToString (tmsOf m))) /\
     memberNames payload
       = ["description"; "from"; "to"; "recurrencetype"; "repeatevery";
          "effectiveto"; "uptimeids"; "tmsids"]%string /\
     member payload "duration" = None /\
     member payload "durationunit" = None /\
     member payload "dayofweekinmonth" = None) /\
  (forall D : list Z,
     exists (upToDate : bool) (window : PingdomMaintenanceSchedule),
       checkMaintenanceSchedule m D = Some (upToDate, window) /\
       tmsOf window = tmsOf m /\
       Description (Maintenance window) = Description (Maintenance m) /\
       Recurrencetype (Maintenance window) = Recurrencetype (Maintenance m) /\
       Repeatevery (Maintenance window) = Repeatevery (Maintenance m) /\
       Effectiveto (Maintenance window) = Effectiveto (Maintenance m)).
Proof.
  split.
  - eexists. split; [apply update_payload|]. by repeat split.
  - intros D.
    destruct (checkMaintenanceSchedule_frame m D) as (up & window & Hrun & ->).
    exists up, (set_Uptime m D). by repeat split.
Qed.

(** C6: [intSliceToString] joins the texts of the IDs, in their order, with
    one comma between two of them: the result is the comma-join of the texts,
    it holds no space (only digits, signs and commas), and cut at its commas
    it gives back the texts of the IDs one by one.  In the payload sent for a
    window with the uptime IDs [5, 9] and the TMS ID [7], [uptimeids] is
    ["5,9"] and [tmsids] is ["7"]. *)
Theorem intSliceToString_comma_joined (v : list Z) :
  intSliceToString v = String.concat "," (map strconv.Itoa v) /\
  Forall (fun c => c <> " "%char /\
                   (strconv.isNumberChar c = true \/ c = ","%char))
         (list_ascii_of_string (intSliceToString v)) /\
  (v <> [] -> strings.Split (intSliceToString v) "," = map strconv.Itoa v) /\
  (forall (ext : External) (e : Env) (w : World) (m : PingdomMaintenanceSchedule),
     exists payload : JObject,
       payloadsBy (updatePingdomMaintenanceSchedule ext e m) w = [payload] /\
       member payload "uptimeids"
         = Some (JString (intSliceToString (uptimeOf m))) /\
       member payload "tmsids"
         = Some (JString (intSliceToString (tmsOf m)))) /\
  (forall (ext : External) (e : Env) (w : World),
     exists payload : JObject,
       payloadsBy (updatePingdomMaintenanceSchedule ext e (windowOf [5; 9])) w
         = [payload] /\
       member payload "uptimeids" = Some (JString "5,9") /\
       member payload "tmsids" = Some (JString "7")).
Proof.
  split; [apply intSliceToString_concat|].
  split.
  { rewrite intSliceToString_concat.
    induction v as [|n v IH]; [constructor|].
    assert (Hn : Forall (fun c => c <> " "%char /\
                   (strconv.isNumberChar c = true \/ c = ","%char))
                   (list_ascii_of_string (strconv.Itoa n))).
    { eapply Forall_impl; [apply Itoa_chars|].
      intros c Hc. split; [|by left]. by intros ->. }
    destruct v as [|n' v]; [done|].
    change (String.concat "," (map strconv.Itoa (n :: n' :: v)))
      with (strconv.Itoa n +:+ "," +:+
            String.concat "," (map strconv.Itoa (n' :: v))).
    rewrite !chars_append. apply Forall_app. split; [done|].
    apply Forall_app. split; [|done].
    simpl. constructor; [|constructor]. split; [done|by right]. }
  split.
  { intros Hv. rewrite intSliceToString_concat.
    apply Split_concat.
    - by destruct v.
    - apply Forall_map, Forall_forall. intros n _. apply Itoa_no_comma. }
  split.
  - intros ext e w m. eexists. split; [apply update_payload|]. by split.
  - intros ext e w. eexists. split; [apply update_payload|]. by split.
Qed.

(** *** The nightly interval (C4) *)

Lemma isLeap_mod (y : Z) :
  time.isLeap y =
    ((y mod 4 =? 0) && (negb (y mod 100 =? 0) || (y mod 400 =? 0))).
Proof.
  unfold time.isLeap.
  assert (H : forall k, 0 < k -> (Z.rem y k =? 0) = (y mod k =? 0)).
  { intros k Hk. apply eq_iff_eq_true. rewrite !Z.eqb_eq.
    by rewrite Z.rem_divide, Z.mod_divide by lia. }
  by rewrite !H by lia.
Qed.

(** A year is 365 days long, and a leap year one day longer. *)
Lemma daysSinceEpoch_succ (y : Z) :
  time.daysSinceEpoch (y + 1) =
  time.daysSinceEpoch y + 365 + (if time.isLeap y then 1 else 0).
Proof.
  rewrite isLeap_mod.
  unfold time.daysSinceEpoch, time.absoluteZeroYear,
    time.daysPer400Years, time.daysPer100Years, time.daysPer4Years.
  destruct (y mod 4 =? 0) eqn:E4; destruct (y mod 100 =? 0) eqn:E100;
    destruct (y mod 400 =? 0) eqn:E400;
    simpl negb; simpl orb; simpl andb; cbv iota;
    rewrite ?Z.eqb_eq, ?Z.eqb_neq in *;
    Z.to_euclidean_division_equations; lia.
Qed.

(** [DateUnix] on a month of the year and an hour of the day: the days
    count 86400 seconds each, whatever the day of the month is. *)
Lemma DateUnix_dayNumber (year month day hour : Z) :
  1 <= month <= 12 -> 0 <= hour < 24 ->
  time.DateUnix year month day hour 0 0 =
    time.dayNumber year month day * 86400 + hour * 3600 + time.unixOfDayZero.
Proof.
  intros Hm Hh. unfold time.DateUnix, time.norm, time.dayNumber.
  rewrite (Z.div_small (month - 1) 12), (Z.mod_small (month - 1) 12) by lia.
  change ((0 + 0 / 60) / 60) with 0.
  change ((0 + 0 / 60) mod 60) with 0.
  change (0 mod 60) with 0.
  replace (hour + 0) with hour by lia.
  rewrite (Z.div_small hour 24), (Z.mod_small hour 24) by lia.
  replace (year + 0) with year by lia.
  replace (month - 1 + 1) with month by lia.
  change time.secondsPerDay with 86400.
  change time.secondsPerHour with 3600.
  change time.secondsPerMinute with 60.
  destruct (time.isLeap year && (3 <=? month)); unfold time.unixOfDayZero; lia.
Qed.

(** Day zero is a midnight of Unix time. *)
Lemma unixOfDayZero_midnight : time.unixOfDayZero mod 86400 = 0.
Proof. reflexivity. Qed.

(** The day after the last day of a month is the first of the next month,
    and the day after the 31st of December the first of January. *)
Lemma dayNumber_tomorrow (t : time.Time) :
  time.validDate t ->
  time.dayNumber (time.Year (time.tomorrow t)) (time.Month (time.tomorrow t))
                 (time.Day (time.tomorrow t))
  = time.dayNumber (time.Year t) (time.Month t) (time.Day t) + 1 /\
  1 <= time.Month (time.tomorrow t) <= 12.
Proof.
  destruct t as [y m d]. unfold time.validDate, time.tomorrow. simpl.
  intros [Hm Hd].
  destruct (Z.ltb_spec d (time.daysIn y m)) as [Hlt|Hge]; simpl.
  { split; [unfold time.dayNumber|]; lia. }
  assert (d = time.daysIn y m) as -> by lia.
  destruct (Z.ltb_spec m 12) as [Hm12|Hm12]; simpl.
  - split; [|lia]. unfold time.dayNumber.
    assert (Hcases : m = 1 \/ m = 2 \/ m = 3 \/ m = 4 \/ m = 5 \/ m = 6 \/
                     m = 7 \/ m = 8 \/ m = 9 \/ m = 10 \/ m = 11) by lia.
    destruct (time.isLeap y) eqn:Hleap;
      repeat (destruct Hcases as [->|Hcases]; [simpl; rewrite ?Hleap; lia|]);
      subst m; simpl; rewrite ?Hleap; lia.
  - assert (m = 12) as -> by lia. split; [|lia].
    unfold time.dayNumber. rewrite daysSinceEpoch_succ. simpl.
    destruct (time.isLeap y); simpl; rewrite ?andb_false_r; simpl; lia.
Qed.

(** The two instants of the struct literal, for a clock that shows a date
    of the calendar. *)
Lemma scheduleUpdate_interval (t : time.Time) (m : PingdomMaintenanceSchedule) :
  time.validDate t ->
  uFrom (scheduleUpdate t m) = time.unixAt t 0 0 0 + 15 * 3600 /\
  uTo (scheduleUpdate t m) = time.unixAt (time.tomorrow t) 0 0 0 + 6 * 3600 /\
  uFrom (scheduleUpdate t m) = time.unixAt t 15 0 0 /\
  uTo (scheduleUpdate t m) = time.unixAt (time.tomorrow t) 6 0 0 /\
  time.unixAt (time.tomorrow t) 0 0 0 = time.unixAt t 0 0 0 + 86400 /\
  time.unixAt t 0 0 0 mod 86400 = 0.
Proof.
  intros Hvalid. pose proof Hvalid as [Hm Hd].
  destruct (dayNumber_tomorrow t Hvalid) as [Hnext Hm'].
  unfold scheduleUpdate, time.unixAt. simpl.
  rewrite !DateUnix_dayNumber by lia. rewrite Hnext.
  pose proof unixOfDayZero_midnight as Hzero.
  repeat split; try (unfold time.dayNumber; lia).
  replace (time.dayNumber (time.Year t) (time.Month t) (time.Day t) * 86400
           + 0 * 3600 + time.unixOfDayZero)
    with (time.unixOfDayZero
          + time.dayNumber (time.Year t) (time.Month t) (time.Day t) * 86400)
    by lia.
  by rewrite Z.mod_add.
Qed.

(** C4: on every execution of [updatePingdomMaintenanceSchedule] whose
    clock reading is a date of the calendar, the members [from] and [to] of
    the payload are computed from that date alone, whatever the [From] and
    [To] of the window passed: [from] is the Unix time of 15:00:00 UTC on the
    clock's date, and [to] that of 06:00:00 UTC on the day after it (the
    first of the next month or year where the date is the last of its),
    which is fifteen hours later. *)
Theorem update_recomputes_nightly_interval (ext : External) (e : Env)
  (m : PingdomMaintenanceSchedule) (w : World) :
  time.validDate (Now ext (trace w)) ->
  exists (payload : JObject) (from to : Z),
    payloadsBy (updatePingdomMaintenanceSchedule ext e m) w = [payload] /\
    member payload "from" = Some (JNumber from) /\
    member payload "to" = Some (JNumber to) /\
    from = time.unixAt (Now ext (trace w)) 15 0 0 /\
    to = time.unixAt (time.tomorrow (Now ext (trace w))) 6 0 0 /\
    from = time.unixAt (Now ext (trace w)) 0 0 0 + 15 * 3600 /\
    to = time.unixAt (time.tomorrow (Now ext (trace w))) 0 0 0 + 6 * 3600 /\
    time.unixAt (Now ext (trace w)) 0 0 0 mod 86400 = 0 /\
    time.unixAt (time.tomorrow (Now ext (trace w))) 0 0 0
      = time.unixAt (Now ext (trace w)) 0 0 0 + 86400 /\
    to - from = 15 * 3600 /\
    (forall m' : PingdomMaintenanceSchedule,
       exists payload' : JObject,
         payloadsBy (updatePingdomMaintenanceSchedule ext e m') w = [payload'] /\
         member payload' "from" = Some (JNumber from) /\
         member payload' "to" = Some (JNumber to)).
Proof.
  intros Hvalid.
  destruct (scheduleUpdate_interval (Now ext (trace w)) m Hvalid)
    as (Hfrom & Hto & Hfrom' & Hto' & Hnext & Hmid).
  exists (Marshal (scheduleUpdate (Now ext (trace w)) m)),
         (uFrom (scheduleUpdate (Now ext (trace w)) m)),
         (uTo (scheduleUpdate (Now ext (trace w)) m)).
  split; [apply update_payload|].
  repeat split; try done.
  - lia.
  - intros m'. eexists. split; [apply update_payload|]. by split.
Qed.

(** The theorem at the last day of 2019: the interval runs from 15:00 on
    the 31st of December to 06:00 on the 1st of January 2020. *)
Lemma update_recomputes_nightly_interval_witness :
  exists (payload : JObject) (from to : Z),
    payloadsBy (updatePingdomMaintenanceSchedule
                  (providerOf 200 [10; 20; 30] [10; 20]) (envOf 300)
                  (windowOf [10; 20; 30])) (worldOf 3 2) = [payload] /\
    member payload "from" = Some (JNumber from) /\
    member payload "to" = Some (JNumber to) /\
    from = 1577804400 /\ to = 1577858400.
Proof.
  destruct (update_recomputes_nightly_interval
              (providerOf 200 [10; 20; 30] [10; 20]) (envOf 300)
              (windowOf [10; 20; 30]) (worldOf 3 2))
    as (payload & from & to & Hp & Hf & Ht & Hfrom & Hto & _).
  - unfold time.validDate. simpl. lia.
  - exists payload, from, to. rewrite Hfrom, Hto in *. by repeat split.
Defined.

(** *** Configuration (C8) *)

(** [getenvInt] is zero on a variable that is not set, on text that is not
    an integer, and on the text of zero. *)
Lemma getenvInt_zero (environ : gmap string string) (key : string) :
  getenvInt environ key = 0 <->
  strconv.Atoi (Getenv environ key) = None \/
  strconv.Atoi (Getenv environ key) = Some 0.
Proof.
  unfold getenvInt. destruct (strconv.Atoi _) as [v|]; split.
  - intros ->. by right.
  - by intros [?|[= ->]].
  - by left.
  - done.
Qed.

Lemma Getenv_unset (environ : gmap string string) (key : string) :
  environ !! key = None -> Getenv environ key = EmptyString.
Proof. unfold Getenv. by intros ->. Qed.

Lemma getenvInt_unset (environ : gmap string string) (key : string) :
  environ !! key = None -> getenvInt environ key = 0.
Proof. intros H. unfold getenvInt. by rewrite (Getenv_unset _ _ H). Qed.

(** The claim as stated fails where it makes the ID positive: with
    [MAINTENANCE_ID=-5] start-up goes through, and the ID is [-5]. *)
Lemma negative_maintenance_id_starts :
  exists (e : Env) (logged : list LogLine),
    main_newEnv negativeIdEnviron = Started e logged /\
    maintenanceID e = -5 /\
    (0 <? maintenanceID e) = false /\
    pollInterval e = 300 /\
    metricsPort e = "9600"%string.
Proof. eexists _, _. split; [vm_compute; reflexivity|]. by repeat split. Qed.

(** C8, amended: start-up ends in [log.Fatalf] when [API_KEY] is empty and
    when [MAINTENANCE_ID] is zero or not an integer (not set included);
    otherwise it goes through with the key and the ID as given, the ID being
    any integer but zero, negative ones included; the poll interval is 300
    when [POLL_INTERVAL] is not set, zero or not an integer, and the integer
    given otherwise; the metrics port is ["9600"] when [METRICS_PORT] is
    empty and the text given otherwise. *)
Theorem startup_contract (environ : gmap string string) :
  (Getenv environ "API_KEY" = EmptyString ->
   main_newEnv environ = Fatal "Could not parse env API_KEY") /\
  (environ !! "MAINTENANCE_ID"%string = None \/
   strconv.Atoi (Getenv environ "MAINTENANCE_ID") = None \/
   strconv.Atoi (Getenv environ "MAINTENANCE_ID") = Some 0 ->
   (exists message : string, main_newEnv environ = Fatal message) /\
   (Getenv environ "API_KEY" <> EmptyString ->
    main_newEnv environ = Fatal "Could not parse env MAINTENANCE_ID")) /\
  (forall id : Z,
     Getenv environ "API_KEY" <> EmptyString ->
     strconv.Atoi (Getenv environ "MAINTENANCE_ID") = Some id ->
     id <> 0 ->
     exists (e : Env) (logged : list LogLine),
       main_newEnv environ = Started e logged /\
       apiKey e = Getenv environ "API_KEY" /\
       maintenanceID e = id /\
       (environ !! "POLL_INTERVAL"%string = None \/
        strconv.Atoi (Getenv environ "POLL_INTERVAL") = None \/
        strconv.Atoi (Getenv environ "POLL_INTERVAL") = Some 0 ->
        pollInterval e = 300) /\
       (forall v : Z,
          strconv.Atoi (Getenv environ "POLL_INTERVAL") = Some v -> v <> 0 ->
          pollInterval e = v) /\
       (Getenv environ "METRICS_PORT" = EmptyString ->
        metricsPort e = "9600"%string) /\
       (Getenv environ "METRICS_PORT" <> EmptyString ->
        metricsPort e = Getenv environ "METRICS_PORT")).
Proof.
  unfold main_newEnv, newEnv. split; [|split].
  - intros ->. by rewrite bool_decide_eq_true_2.
  - intros Hid.
    assert (Hzero : getenvInt environ "MAINTENANCE_ID" = 0).
    { destruct Hid as [Hunset|Hid];
        [by apply getenvInt_unset|by apply getenvInt_zero]. }
    rewrite Hzero. split.
    + case_bool_decide; [by eexists|].
      rewrite bool_decide_eq_true_2 by done. by eexists.
    + intros Hkey. rewrite bool_decide_eq_false_2 by done.
      by rewrite bool_decide_eq_true_2.
  - intros id Hkey Hid Hnz.
    assert (Hget : getenvInt environ "MAINTENANCE_ID" = id).
    { unfold getenvInt. by rewrite Hid. }
    rewrite bool_decide_eq_false_2 by done.
    rewrite bool_decide_eq_false_2 by (by rewrite Hget).
    eexists _, _. split; [reflexivity|]. simpl. repeat split.
    + done.
    + intros Hpoll.
      assert (getenvInt environ "POLL_INTERVAL" = 0) as ->.
      { destruct Hpoll as [Hunset|Hpoll];
          [by apply getenvInt_unset|by apply getenvInt_zero]. }
      done.
    + intros v Hv Hvnz. unfold getenvInt. rewrite Hv.
      by rewrite bool_decide_eq_false_2.
    + intros ->. done.
    + intros Hport. by rewrite bool_decide_eq_false_2.
Qed.

(** Start-up also lets a negative poll interval through, and [pollAPI]
    then panics in [time.NewTicker] before its first tick. *)
Lemma negative_poll_interval_panics (ext : External) (fires : nat) (w : World) :
  pollAPI ext (envOf (-5)) fires w = (Panicked, w).
Proof. reflexivity. Qed.

(** *** The two fetches and their gauges (C2) *)

(** [getPingdomChecks], case by case. *)
Lemma getPingdomChecks_run (ext : External) (e : Env) (w : World) :
  getPingdomChecks ext e w =
    let w1 := withEvent (Sent (checksRequest e)) w in
    match Do ext (trace w) (checksRequest e) with
    | Err err => (Err err, w1)
    | Ok resp =>
        if statusOK resp then
          match UnmarshalChecks ext (Body resp) with
          | Err err => (Err err, withTotal 0 w1)
          | Ok c => (Ok c, withTotal (Z.of_nat (length (Checks_Checks c))) w1)
          end
        else
          (Err (statusError
                  "GET Pingdom checks responded with status code: " resp), w1)
    end.
Proof.
  unfold getPingdomChecks, bind, client_Do. simpl.
  destruct (Do ext (trace w) _) as [resp|err]; [|done].
  destruct (statusOK resp); simpl; [|done].
  by destruct (UnmarshalChecks ext (Body resp)).
Qed.

(** [getPingdomMainenanceSchedule], case by case. *)
Lemma getPingdomMainenanceSchedule_run (ext : External) (e : Env) (w : World) :
  getPingdomMainenanceSchedule ext e w =
    let w1 := withEvent (Sent (maintenanceRequest e)) w in
    match Do ext (trace w) (maintenanceRequest e) with
    | Err err => (Err err, withMaintenance 0 w1)
    | Ok resp =>
        if statusOK resp then
          match UnmarshalSchedule ext (Body resp) with
          | Err err => (Err err, withMaintenance 0 w1)
          | Ok m => (Ok m, withMaintenance (Z.of_nat (length (uptimeOf m))) w1)
          end
        else
          (Err (statusError
                  "GET Pingdom maintenance responded with status code: " resp),
           w1)
    end.
Proof.
  unfold getPingdomMainenanceSchedule, bind, client_Do. simpl.
  destruct (Do ext (trace w) _) as [resp|err]; [|done].
  destruct (statusOK resp); simpl; [|done].
  by destruct (UnmarshalSchedule ext (Body resp)).
Qed.

(** Either fetch sends its request and adds nothing else to the trace. *)
Lemma getPingdomChecks_trace (ext : External) (e : Env) (w : World) :
  trace (snd (getPingdomChecks ext e w)) = trace w ++ [Sent (checksRequest e)].
Proof.
  rewrite getPingdomChecks_run. simpl.
  destruct (Do ext (trace w) _) as [resp|err]; [|done].
  destruct (statusOK resp); [|done].
  by destruct (UnmarshalChecks ext (Body resp)).
Qed.

Lemma getPingdomMainenanceSchedule_trace (ext : External) (e : Env) (w : World) :
  trace (snd (getPingdomMainenanceSchedule ext e w))
    = trace w ++ [Sent (maintenanceRequest e)].
Proof.
  rewrite getPingdomMainenanceSchedule_run. simpl.
  destruct (Do ext (trace w) _) as [resp|err]; [|done].
  destruct (statusOK resp); [|done].
  by destruct (UnmarshalSchedule ext (Body resp)).
Qed.

(** Where the gauges are set to zero: on a body that does not decode, in
    both fetches, and on a transport error in the fetch of the window. *)
Lemma decode_error_zeroes_gauges (ext : External) (e : Env) (w : World)
  (resp : Response) (err : error) :
  statusOK resp = true ->
  (Do ext (trace w) (checksRequest e) = Ok resp ->
   UnmarshalChecks ext (Body resp) = Err err ->
   fst (getPingdomChecks ext e w) = Err err /\
   slaTotal (snd (getPingdomChecks ext e w)) = 0) /\
  (Do ext (trace w) (maintenanceRequest e) = Ok resp ->
   UnmarshalSchedule ext (Body resp) = Err err ->
   fst (getPingdomMainenanceSchedule ext e w) = Err err /\
   slaMaintenance (snd (getPingdomMainenanceSchedule ext e w)) = 0).
Proof.
  intros Hok. split; intros Hdo Hdec.
  - by rewrite getPingdomChecks_run, Hdo; simpl; rewrite Hok, Hdec.
  - by rewrite getPingdomMainenanceSchedule_run, Hdo; simpl; rewrite Hok, Hdec.
Qed.

Lemma transport_error_zeroes_window_gauge (ext : External) (e : Env)
  (w : World) (err : error) :
  Do ext (trace w) (maintenanceRequest e) = Err err ->
  fst (getPingdomMainenanceSchedule ext e w) = Err err /\
  slaMaintenance (snd (getPingdomMainenanceSchedule ext e w)) = 0.
Proof.
  intros Hdo. by rewrite getPingdomMainenanceSchedule_run, Hdo.
Qed.

(** Where they are not: a status outside 2xx leaves both gauges as they
    were, and so does a transport error in the fetch of the checks. *)
Lemma status_error_keeps_gauges (ext : External) (e : Env) (w : World)
  (resp : Response) :
  statusOK resp = false ->
  (Do ext (trace w) (checksRequest e) = Ok resp ->
   (exists err, fst (getPingdomChecks ext e w) = Err err) /\
   slaTotal (snd (getPingdomChecks ext e w)) = slaTotal w) /\
  (Do ext (trace w) (maintenanceRequest e) = Ok resp ->
   (exists err, fst (getPingdomMainenanceSchedule ext e w) = Err err) /\
   slaMaintenance (snd (getPingdomMainenanceSchedule ext e w))
     = slaMaintenance w).
Proof.
  intros Hok. split; intros Hdo.
  - rewrite getPingdomChecks_run, Hdo; simpl; rewrite Hok. eauto.
  - rewrite getPingdomMainenanceSchedule_run, Hdo; simpl; rewrite Hok. eauto.
Qed.

Lemma transport_error_keeps_checks_gauge (ext : External) (e : Env)
  (w : World) (err : error) :
  Do ext (trace w) (checksRequest e) = Err err ->
  fst (getPingdomChecks ext e w) = Err err /\
  slaTotal (snd (getPingdomChecks ext e w)) = slaTotal w.
Proof.
  intros Hdo. by rewrite getPingdomChecks_run, Hdo.
Qed.

(** C2, the code at the failing inputs: with both gauges at 3, a provider
    that answers 500 makes both fetches return an error and leaves the
    gauges at 3; a provider that cannot be reached makes the fetch of the
    checks return an error and leaves its gauge at 3, while the fetch of the
    window sets its gauge to 0. *)
Theorem fetch_errors_that_keep_the_gauge :
  (exists err w',
     getPingdomChecks (providerOf 500 [10; 20; 30] [10; 20; 30])
                      (envOf 300) (worldOf 3 3) = (Err err, w') /\
     slaTotal w' = 3) /\
  (exists err w',
     getPingdomMainenanceSchedule (providerOf 500 [10; 20; 30] [10; 20; 30])
                                  (envOf 300) (worldOf 3 3) = (Err err, w') /\
     slaMaintenance w' = 3) /\
  (exists err w',
     getPingdomChecks unreachable (envOf 300) (worldOf 3 3) = (Err err, w') /\
     slaTotal w' = 3) /\
  (exists err w',
     getPingdomMainenanceSchedule unreachable (envOf 300) (worldOf 3 3)
       = (Err err, w') /\
     slaMaintenance w' = 0).
Proof.
  repeat split; eexists _, _; (split; [reflexivity|reflexivity]).
Qed.

(** *** One tick *)

Lemma getUptimeIds_map (c : PingdomChecks) :
  getUptimeIds c = map Check_ID (Checks_Checks c).
Proof.
  unfold getUptimeIds.
  assert (H : forall (l : list Check) (acc : list Z),
             fold_left (fun i check => i ++ [Check_ID check]) l acc
             = acc ++ map Check_ID l).
  { induction l as [|x l IH]; intros acc; simpl.
    - by rewrite app_nil_r.
    - by rewrite IH, <- app_assoc. }
  by rewrite H.
Qed.

(** How [updatePingdomMaintenanceSchedule] ends: with an error after its
    request, or with no error after its request and two lines. *)
Lemma update_outcome (ext : External) (e : Env) (m : PingdomMaintenanceSchedule)
  (w : World) :
  exists json : JObject,
    (exists err : error,
       updatePingdomMaintenanceSchedule ext e m w
         = (Some err, withEvent (Sent (updateRequest e json)) w)) \/
    (exists response : string,
       updatePingdomMaintenanceSchedule ext e m w
         = (None, withEvent (Logged (responseLine response))
                    (withEvent (Logged (putLine json))
                       (withEvent (Sent (updateRequest e json)) w)))).
Proof.
  exists (Marshal (scheduleUpdate (Now ext (trace w)) m)).
  pose proof (update_run ext e m w) as Hrun. simpl in Hrun. rewrite Hrun.
  destruct (Do ext (trace w) _) as [resp|err]; [|left; by eexists].
  destruct (statusOK resp); [|left; by eexists].
  destruct (ReadErr resp); [left; by eexists|right; by eexists].
Qed.

(** The body of the [case], with the reconciler's answer put in: it never
    panics. *)
Lemma tick_run (ext : External) (e : Env) (w : World) :
  tick ext e w =
    let '(r, w1) := getPingdomChecks ext e w in
    match r with
    | Err err => (Break, withEvent (Logged (checksErrorLine err)) w1)
    | Ok c =>
        let '(r, w2) := getPingdomMainenanceSchedule ext e w1 in
        match r with
        | Err err => (Break, withEvent (Logged (maintenanceErrorLine err)) w2)
        | Ok m =>
            if bool_decide (uptimeOf m = getUptimeIds c) then
              (Next,
               snd (getPingdomMainenanceSchedule ext e
                      (withEvent (Logged upToDateLine) w2)))
            else
              let '(err, w3) :=
                updatePingdomMaintenanceSchedule ext e
                  (set_Uptime m (getUptimeIds c)) w2 in
              match err with
              | Some err =>
                  (Break, withEvent (Logged (updateErrorLine err)) w3)
              | None => (Next, w3)
              end
        end
    end.
Proof.
  unfold tick, bind.
  destruct (getPingdomChecks ext e w) as [[c|err] w1]; [|done].
  destruct (getPingdomMainenanceSchedule ext e w1) as [[m|err] w2]; [|done].
  rewrite checkMaintenanceSchedule_spec.
  case_bool_decide; simpl.
  - by destruct (getPingdomMainenanceSchedule ext e _).
  - by destruct (updatePingdomMaintenanceSchedule ext e _ w2) as [[err|] w3].
Qed.

(** A tick, from the timer fire on, takes one of the five ways, and the
    [select] statement ends normally whichever it is. *)
Lemma select_ticker_shape (ext : External) (e : Env) (w : World) :
  exists (evs : list Event) (w' : World),
    select_ticker (tick ext e) w = (Next, w') /\
    trace w' = trace w ++ evs /\
    TickShape e evs.
Proof.
  unfold select_ticker, bind, emit. rewrite tick_run.
  set (w0 := withEvent Fire w).
  pose proof (getPingdomChecks_trace ext e w0) as Ht1.
  destruct (getPingdomChecks ext e w0) as [[c|err] w1]; simpl in Ht1;
    [|eexists _, _; split; [reflexivity|]; split; [trace_steps|simpl; auto with tick]].
  pose proof (getPingdomMainenanceSchedule_trace ext e w1) as Ht2.
  destruct (getPingdomMainenanceSchedule ext e w1) as [[m|err] w2]; simpl in Ht2;
    [|eexists _, _; split; [reflexivity|]; split; [trace_steps|simpl; auto with tick]].
  case_bool_decide as Heq.
  - pose proof (getPingdomMainenanceSchedule_trace ext e
                  (withEvent (Logged upToDateLine) w2)) as Ht3.
    eexists _, _. split; [reflexivity|]. split; [trace_steps|simpl; auto with tick].
  - destruct (update_outcome ext e (set_Uptime m (getUptimeIds c)) w2)
      as (json & [(err & ->)|(response & ->)]);
      eexists _, _; (split; [reflexivity|]); (split; [trace_steps|simpl; auto with tick]).
Qed.

(** *** The tick that finds the window up to date (C9) *)

(** C9: in a tick in which both fetches succeed and the reconciler returns
    [upToDate = true], no update is issued (the requests of the tick are
    the fetch of the checks and two fetches of the window, none with a
    body); the tick logs the line that the schedule is up to date and
    nothing else; after that line it fetches the window once more, and
    whatever that fetch returns, a window or an error, the tick ends
    normally in the state the fetch leaves, its gauge included. *)
Theorem tick_up_to_date (ext : External) (e : Env) (w w1 w2 : World)
  (c : PingdomChecks) (m window : PingdomMaintenanceSchedule) :
  getPingdomChecks ext e w = (Ok c, w1) ->
  getPingdomMainenanceSchedule ext e w1 = (Ok m, w2) ->
  checkMaintenanceSchedule m (getUptimeIds c) = Some (true, window) ->
  tick ext e w =
    (Next, snd (getPingdomMainenanceSchedule ext e
                  (withEvent (Logged upToDateLine) w2))) /\
  eventsOf (tick ext e) w =
    [Sent (checksRequest e); Sent (maintenanceRequest e);
     Logged upToDateLine; Sent (maintenanceRequest e)] /\
  sentBy (tick ext e) w =
    [checksRequest e; maintenanceRequest e; maintenanceRequest e] /\
  payloadsBy (tick ext e) w = [] /\
  loggedBy (tick ext e) w = [upToDateLine] /\
  slaMaintenance (snd (tick ext e w)) =
    slaMaintenance (snd (getPingdomMainenanceSchedule ext e
                           (withEvent (Logged upToDateLine) w2))).
Proof.
  intros Hchecks Hwindow Hup.
  assert (Heq : uptimeOf m = getUptimeIds c).
  { rewrite checkMaintenanceSchedule_spec in Hup.
    by case_bool_decide. }
  assert (Hrun : tick ext e w =
    (Next, snd (getPingdomMainenanceSchedule ext e
                  (withEvent (Logged upToDateLine) w2)))).
  { rewrite tick_run, Hchecks, Hwindow. by rewrite bool_decide_eq_true_2. }
  assert (Hevents : eventsOf (tick ext e) w =
    [Sent (checksRequest e); Sent (maintenanceRequest e);
     Logged upToDateLine; Sent (maintenanceRequest e)]).
  { apply eventsOf_app. rewrite Hrun. simpl.
    rewrite getPingdomMainenanceSchedule_trace. simpl.
    pose proof (getPingdomMainenanceSchedule_trace ext e w1) as Ht2.
    pose proof (getPingdomChecks_trace ext e w) as Ht1.
    rewrite Hwindow in Ht2. rewrite Hchecks in Ht1. simpl in Ht1, Ht2.
    rewrite Ht2, Ht1. by rewrite <- !app_assoc. }
  split; [done|]. split; [done|].
  unfold payloadsBy, loggedBy, sentBy. rewrite Hevents, Hrun. by repeat split.
Qed.

(** The theorem on a provider whose checks and window both hold the IDs
    10, 20 and 30: the gauges go from zero to three. *)
Lemma tick_up_to_date_witness :
  tick (providerOf 200 [10; 20; 30] [10; 20; 30]) (envOf 300) (worldOf 0 0)
    = (Next,
       {| slaTotal := 3; slaMaintenance := 3;
          trace := [Sent (checksRequest (envOf 300));
                    Sent (maintenanceRequest (envOf 300));
                    Logged upToDateLine;
                    Sent (maintenanceRequest (envOf 300))] |}) /\
  payloadsBy (tick (providerOf 200 [10; 20; 30] [10; 20; 30]) (envOf 300))
             (worldOf 0 0) = [].
Proof.
  edestruct (tick_up_to_date (providerOf 200 [10; 20; 30] [10; 20; 30])
               (envOf 300) (worldOf 0 0))
    as (Hrun & _ & _ & Hpayloads & _).
  - lazy. reflexivity.
  - lazy. reflexivity.
  - lazy. reflexivity.
  - split; [|exact Hpayloads]. rewrite Hrun. reflexivity.
Defined.

(** *** The loop (C3) *)

(** As long as the body of the loop ends normally the loop goes on: after
    any number of timer fires it has run that many ticks and waits. *)
Lemma for_loop_ticks (ext : External) (e : Env) (fires : nat) : forall w : World,
  exists (ticks : list (list Event)) (w' : World),
    for_loop fires (select_ticker (tick ext e)) w = (Waiting, w') /\
    trace w' = trace w ++ concat ticks /\
    length ticks = fires /\
    Forall (TickShape e) ticks.
Proof.
  induction fires as [|fires IH]; intros w.
  - exists [], w. simpl. by rewrite app_nil_r.
  - destruct (select_ticker_shape ext e w) as (evs & w1 & Hrun & Htrace & Hshape).
    destruct (IH w1) as (ticks & w' & Hloop & Htrace' & Hlen & Hall).
    exists (evs :: ticks), w'. simpl. unfold bind. rewrite Hrun.
    split; [done|]. split; [|split].
    + by rewrite Htrace', Htrace, <- app_assoc.
    + by rewrite Hlen.
    + by constructor.
Qed.

(** C3: in a process whose ticker could be created, whatever the provider
    answers and however many times the timer fires, [pollAPI] is still in
    its loop, waiting for the next fire, and has run one tick per fire, each
    starting with the fetch of the checks and taking one of the five ways
    of [TickShape]; the [select] statement ends normally after every tick.
    Within a tick an error of the fetch of the checks, of the fetch of the
    window or of the update is logged with its cause and ends the body of
    the [case] with a [break], nothing being done after the line. *)
Theorem pollAPI_keeps_ticking (ext : External) (e : Env) :
  0 < tickerPeriod e ->
  (forall (fires : nat) (w : World),
     exists (ticks : list (list Event)) (w' : World),
       pollAPI ext e fires w = (Waiting, w') /\
       trace w' = trace w ++ concat ticks /\
       length ticks = fires /\
       Forall (TickShape e) ticks) /\
  (forall w : World, fst (select_ticker (tick ext e) w) = Next) /\
  (forall (w w1 : World) (err : error),
     getPingdomChecks ext e w = (Err err, w1) ->
     tick ext e w = (Break, withEvent (Logged (checksErrorLine err)) w1)) /\
  (forall (w w1 w2 : World) (c : PingdomChecks) (err : error),
     getPingdomChecks ext e w = (Ok c, w1) ->
     getPingdomMainenanceSchedule ext e w1 = (Err err, w2) ->
     tick ext e w = (Break, withEvent (Logged (maintenanceErrorLine err)) w2)) /\
  (forall (w w1 w2 w3 : World) (c : PingdomChecks)
          (m schedule : PingdomMaintenanceSchedule) (err : error),
     getPingdomChecks ext e w = (Ok c, w1) ->
     getPingdomMainenanceSchedule ext e w1 = (Ok m, w2) ->
     checkMaintenanceSchedule m (getUptimeIds c) = Some (false, schedule) ->
     updatePingdomMaintenanceSchedule ext e schedule w2 = (Some err, w3) ->
     tick ext e w = (Break, withEvent (Logged (updateErrorLine err)) w3)).
Proof.
  intros Hperiod. repeat split.
  - intros fires w. unfold pollAPI.
    destruct (Z.leb_spec (tickerPeriod e) 0) as [Hle|_]; [lia|].
    apply for_loop_ticks.
  - intros w. by destruct (select_ticker_shape ext e w) as (? & ? & -> & _).
  - intros w w1 err Hchecks. by rewrite tick_run, Hchecks.
  - intros w w1 w2 c err Hchecks Hwindow.
    by rewrite tick_run, Hchecks, Hwindow.
  - intros w w1 w2 w3 c m schedule err Hchecks Hwindow Hcheck Hupdate.
    rewrite checkMaintenanceSchedule_spec in Hcheck.
    case_bool_decide as Heq; [done|].
    injection Hcheck as <-.
    rewrite tick_run, Hchecks, Hwindow.
    rewrite bool_decide_eq_false_2 by done. by rewrite Hupdate.
Qed.

(** The theorem on a provider that answers every request with 500, for
    three fires: three ticks, each an error of the first fetch, logged. *)
Lemma pollAPI_keeps_ticking_witness :
  exists w' : World,
    pollAPI (providerOf 500 [10; 20; 30] [10; 20]) (envOf 300) 3 (worldOf 3 3)
      = (Waiting, w') /\
    omap lineOf (trace w') =
      [checksErrorLine "GET Pingdom checks responded with status code: 500";
       checksErrorLine "GET Pingdom checks responded with status code: 500";
       checksErrorLine "GET Pingdom checks responded with status code: 500"].
Proof.
  destruct (pollAPI_keeps_ticking (providerOf 500 [10; 20; 30] [10; 20])
              (envOf 300)) as [Hloop _].
  - reflexivity.
  - destruct (Hloop 3%nat (worldOf 3 3)) as (ticks & w' & Hrun & _).
    exists w'. split; [exact Hrun|].
    assert (Hw' : w' = snd (pollAPI (providerOf 500 [10; 20; 30] [10; 20])
                              (envOf 300) 3 (worldOf 3 3))) by by rewrite Hrun.
    rewrite Hw'. reflexivity.
Defined.

(** * Part III: further properties of the code *)

(** ** The list of desired IDs *)

(** X1: [getUptimeIds] returns one ID per check, in the order of the checks:
    the list is as long as the list of checks, and the ID at an index is the
    ID of the check at that index (nothing at an index past the end). *)
Theorem getUptimeIds_positional (c : PingdomChecks) :
  length (getUptimeIds c) = length (Checks_Checks c) /\
  forall i : nat,
    getUptimeIds c !! i = Check_ID <$> (Checks_Checks c !! i).
Proof.
  rewrite getUptimeIds_map. split.
  - apply length_map.
  - generalize (Checks_Checks c) as l.
    induction l as [|x l IH]; intros [|i]; simpl; auto.
Qed.

(** ** The text of an ID list reads back *)

Lemma Itoa_inj (i j : Z) : strconv.Itoa i = strconv.Itoa j -> i = j.
Proof.
  unfold strconv.Itoa. intros Heq. apply to_int_inj.
  assert (Hok : forall z : Z,
             Z.to_int z <> Decimal.Pos Decimal.Nil /\
             Z.to_int z <> Decimal.Neg Decimal.Nil).
  { intros [|p|p]; simpl; split; try done;
      intros [= H]; by apply DecimalPos.Unsigned.to_uint_nonnil in H. }
  apply (f_equal NilZero.int_of_string) in Heq.
  rewrite !NilZero.isi in Heq by apply Hok. congruence.
Qed.

Lemma Itoa_nonempty (i : Z) : strconv.Itoa i <> EmptyString.
Proof.
  unfold strconv.Itoa. destruct (Z.to_int i) as [d|d]; simpl; [|done].
  by destruct d.
Qed.

Lemma map_Itoa_inj (v v' : list Z) :
  map strconv.Itoa v = map strconv.Itoa v' -> v = v'.
Proof.
  revert v'. induction v as [|n v IH]; intros [|n' v']; simpl; try done.
  intros [= Hn Hv]. f_equal; [by apply Itoa_inj|by apply IH].
Qed.

(** Only the empty list has the empty text. *)
Lemma intSliceToString_empty (v : list Z) :
  intSliceToString v = EmptyString -> v = [].
Proof.
  rewrite intSliceToString_concat. destruct v as [|n v]; [done|].
  intros Hempty. exfalso. apply (Itoa_nonempty n).
  destruct v as [|n' v]; [done|].
  change (String.concat "," (map strconv.Itoa (n :: n' :: v)))
    with (strconv.Itoa n +:+ "," +:+
          String.concat "," (map strconv.Itoa (n' :: v))) in Hempty.
  by destruct (strconv.Itoa n).
Qed.

(** X2: [intSliceToString] loses nothing: two lists of IDs have the same
    text exactly when they are the same list, so a payload names one list
    of IDs only. *)
Theorem intSliceToString_injective (v v' : list Z) :
  intSliceToString v = intSliceToString v' <-> v = v'.
Proof.
  split; [|by intros ->]. intros Heq.
  destruct v as [|n v].
  { symmetry. apply intSliceToString_empty. by rewrite <- Heq. }
  destruct v' as [|n' v'].
  { apply intSliceToString_empty. by rewrite Heq. }
  apply map_Itoa_inj.
  rewrite <- (Split_concat "," (map strconv.Itoa (n :: v))),
          <- (Split_concat "," (map strconv.Itoa (n' :: v'))).
  - by rewrite <- !intSliceToString_concat, Heq.
  - done.
  - apply Forall_map, Forall_forall. intros k _. apply Itoa_no_comma.
  - done.
  - apply Forall_map, Forall_forall. intros k _. apply Itoa_no_comma.
Qed.

(** X3: the text [intSliceToString] writes for a list of [int]s that is not
    empty reads back as the list: cut at the commas, every piece is accepted
    by [strconv.Atoi], and the numbers read are the IDs, in order. *)
Theorem intSliceToString_reads_back (v : list Z) :
  v <> [] ->
  Forall (fun n => strconv.inInt n = true) v ->
  mapM strconv.Atoi (strings.Split (intSliceToString v) ",") = Some v.
Proof.
  intros Hv Hints.
  rewrite intSliceToString_concat, Split_concat.
  - clear Hv. induction Hints as [|n v Hn Hints IH]; [done|].
    simpl. rewrite Atoi_Itoa by done. simpl. by rewrite IH.
  - by destruct v.
  - apply Forall_map, Forall_forall. intros k _. apply Itoa_no_comma.
Qed.

Lemma intSliceToString_reads_back_witness :
  mapM strconv.Atoi
       (strings.Split (intSliceToString [10; -20; 9223372036854775807]) ",")
    = Some [10; -20; 9223372036854775807].
Proof.
  apply intSliceToString_reads_back; [done|].
  repeat constructor.
Defined.

(** ** Integers from the environment *)


(** X4: an [int] written in decimal into a variable of the environment is
    the value [getenvInt] returns for that variable. *)
Theorem getenvInt_reads_decimal (environ : gmap string string) (key : string)
  (n : Z) :
  strconv.inInt n = true ->
  getenvInt (<[key := strconv.Itoa n]> environ) key = n.
Proof.
  intros Hn. unfold getenvInt, Getenv.
  rewrite lookup_insert_eq. simpl. by rewrite Atoi_Itoa.
Qed.

Lemma getenvInt_reads_decimal_witness :
  getenvInt (<["MAINTENANCE_ID"%string := strconv.Itoa (-9223372036854775808)]>
               negativeIdEnviron) "MAINTENANCE_ID"
    = -9223372036854775808.
Proof. by apply getenvInt_reads_decimal. Defined.


(** ** From start-up to the loop *)

(** What [newEnv] returns when it returns. *)
Lemma main_newEnv_started (environ : gmap string string) (e : Env)
  (logged : list LogLine) :
  main_newEnv environ = Started e logged ->
  apiKey e = Getenv environ "API_KEY" /\
  maintenanceID e = getenvInt environ "MAINTENANCE_ID" /\
  pollInterval e =
    (if bool_decide (getenvInt environ "POLL_INTERVAL" = 0) then 300
     else getenvInt environ "POLL_INTERVAL") /\
  metricsPort e =
    (if bool_decide (Getenv environ "METRICS_PORT" = EmptyString)
     then "9600"%string else Getenv environ "METRICS_PORT").
Proof.
  unfold main_newEnv, newEnv.
  repeat case_bool_decide; try done; by intros [= <- _].
Qed.

Lemma int64_small (z : Z) :
  - 2 ^ 63 <= z < 2 ^ 63 -> int64 z = z.
Proof.
  intros Hz. unfold int64. rewrite Z.mod_small; lia.
Qed.

(** X6: when start-up goes through and [POLL_INTERVAL] is not set, not a
    number, zero, or a number of seconds from 1 to 9223372036 (the longest
    period that fits a [time.Duration]), the ticker gets a positive period,
    300 seconds by default, and [pollAPI] is in its loop after any number of
    timer fires, whatever the provider answers. *)
Theorem main_starts_polling (environ : gmap string string) (e : Env)
  (logged : list LogLine) :
  main_newEnv environ = Started e logged ->
  0 <= getenvInt environ "POLL_INTERVAL" <= 9223372036 ->
  tickerPeriod e = 1000000000 * pollInterval e /\
  (getenvInt environ "POLL_INTERVAL" = 0 ->
   tickerPeriod e = 300 * 1000000000) /\
  forall (ext : External) (fires : nat) (w : World),
    fst (pollAPI ext e fires w) = Waiting.
Proof.
  intros Hstart Hrange.
  destruct (main_newEnv_started _ _ _ Hstart) as (_ & _ & Hpoll & _).
  assert (Hp : 0 < pollInterval e <= 9223372036).
  { rewrite Hpoll. case_bool_decide; lia. }
  assert (Hperiod : tickerPeriod e = 1000000000 * pollInterval e).
  { unfold tickerPeriod. rewrite (int64_small (pollInterval e)) by lia.
    apply int64_small. lia. }
  split; [done|]. split.
  - intros Hzero. rewrite Hperiod, Hpoll.
    by rewrite bool_decide_eq_true_2.
  - intros ext fires w. unfold pollAPI.
    destruct (Z.leb_spec (tickerPeriod e) 0) as [Hle|_]; [lia|].
    by destruct (for_loop_ticks ext e fires w) as (? & ? & -> & _).
Qed.

Lemma main_starts_polling_witness :
  tickerPeriod (envOf 300) = 300 * 1000000000 /\
  fst (pollAPI unreachable (envOf 300) 2 (worldOf 0 0)) = Waiting.
Proof.
  destruct (main_starts_polling
              {[ "API_KEY"%string := "secret"%string;
                 "MAINTENANCE_ID"%string := "42"%string ]}
              (envOf 300) (startupLines (envOf 300)))
    as (_ & Hdefault & Hpolls).
  - vm_compute. reflexivity.
  - vm_compute. split; discriminate.
  - split; [apply Hdefault; reflexivity|apply Hpolls].
Defined.

(** X7: start-up lets a negative [POLL_INTERVAL] through, and one too long
    for a [time.Duration]; for the intervals from -9223372036 to -1 seconds
    and from 9223372037 to 18446744073 seconds the period [time.NewTicker]
    gets is not positive and [pollAPI] panics before its first tick,
    sending and logging nothing. *)
Theorem main_bad_interval_panics (environ : gmap string string) (e : Env)
  (logged : list LogLine) :
  main_newEnv environ = Started e logged ->
  - 9223372036 <= getenvInt environ "POLL_INTERVAL" < 0 \/
  9223372037 <= getenvInt environ "POLL_INTERVAL" <= 18446744073 ->
  tickerPeriod e < 0 /\
  forall (ext : External) (fires : nat) (w : World),
    pollAPI ext e fires w = (Panicked, w).
Proof.
  intros Hstart Hrange.
  destruct (main_newEnv_started _ _ _ Hstart) as (_ & _ & Hpoll & _).
  rewrite bool_decide_eq_false_2 in Hpoll by lia.
  assert (Hperiod : tickerPeriod e < 0).
  { unfold tickerPeriod. rewrite (int64_small (pollInterval e)) by lia.
    rewrite Hpoll. destruct Hrange as [Hneg|Hbig].
    - rewrite int64_small; lia.
    - unfold int64.
      replace ((1000000000 * getenvInt environ "POLL_INTERVAL" + 2 ^ 63)
               mod 2 ^ 64)
        with (1000000000 * getenvInt environ "POLL_INTERVAL" + 2 ^ 63 - 2 ^ 64).
      + lia.
      + apply Z.mod_unique with (q := 1); lia. }
  split; [done|]. intros ext fires w. unfold pollAPI.
  destruct (Z.leb_spec (tickerPeriod e) 0) as [_|Hgt]; [done|lia].
Qed.

Lemma main_bad_interval_panics_witness :
  pollAPI unreachable
          {| apiKey := "secret"; maintenanceID := -5; pollInterval := -5;
             metricsPort := "9600" |} 2 (worldOf 0 0)
    = (Panicked, worldOf 0 0).
Proof.
  destruct (main_bad_interval_panics
              (<["POLL_INTERVAL"%string := "-5"%string]> negativeIdEnviron)
              {| apiKey := "secret"; maintenanceID := -5; pollInterval := -5;
                 metricsPort := "9600" |}
              (startupLines
                 {| apiKey := "secret"; maintenanceID := -5;
                    pollInterval := -5; metricsPort := "9600" |}))
    as [_ Hpanics].
  - vm_compute. reflexivity.
  - left. vm_compute. split; [discriminate|reflexivity].
  - apply Hpanics.
Defined.

(** ** The gauges *)

(** X8: when [getPingdomChecks] returns checks, the provider answered its
    one request with a status from 200 to 299 and a body that decodes to
    them, the gauge [slaTotal] shows their number, which is the number of
    desired IDs, and the gauge of the window is as it was. *)
Theorem getPingdomChecks_success (ext : External) (e : Env) (w w' : World)
  (c : PingdomChecks) :
  getPingdomChecks ext e w = (Ok c, w') ->
  slaTotal w' = Z.of_nat (length (getUptimeIds c)) /\
  slaMaintenance w' = slaMaintenance w /\
  trace w' = trace w ++ [Sent (checksRequest e)] /\
  exists resp : Response,
    Do ext (trace w) (checksRequest e) = Ok resp /\
    200 <= StatusCode resp < 300 /\
    UnmarshalChecks ext (Body resp) = Ok c.
Proof.
  rewrite getPingdomChecks_run. simpl.
  destruct (Do ext (trace w) _) as [resp|err]; [|done].
  destruct (statusOK resp) eqn:Hok; [|done].
  destruct (UnmarshalChecks ext (Body resp)) as [c'|err] eqn:Hdec; [|done].
  intros [= -> <-]. rewrite getUptimeIds_map, length_map.
  repeat split; try done. exists resp. repeat split; try done;
    unfold statusOK in Hok; apply andb_true_iff in Hok as [H1 H2]; lia.
Qed.

Lemma getPingdomChecks_success_witness :
  slaTotal (snd (getPingdomChecks (providerOf 200 [10; 20; 30] [10; 20])
                                  (envOf 300) (worldOf 0 7))) = 3 /\
  slaMaintenance (snd (getPingdomChecks (providerOf 200 [10; 20; 30] [10; 20])
                                        (envOf 300) (worldOf 0 7))) = 7.
Proof.
  edestruct (getPingdomChecks_success (providerOf 200 [10; 20; 30] [10; 20])
               (envOf 300) (worldOf 0 7)) as (Htotal & Hwindow & _).
  - lazy. reflexivity.
  - split; [exact Htotal|exact Hwindow].
Defined.

(** X9: when [getPingdomMainenanceSchedule] returns a window, the provider
    answered its one request with a status from 200 to 299 and a body that
    decodes to it, the gauge [slaMaintenance] shows the number of uptime IDs
    of the window, and the gauge of the checks is as it was. *)
Theorem getPingdomMainenanceSchedule_success (ext : External) (e : Env)
  (w w' : World) (m : PingdomMaintenanceSchedule) :
  getPingdomMainenanceSchedule ext e w = (Ok m, w') ->
  slaMaintenance w' = Z.of_nat (length (uptimeOf m)) /\
  slaTotal w' = slaTotal w /\
  trace w' = trace w ++ [Sent (maintenanceRequest e)] /\
  exists resp : Response,
    Do ext (trace w) (maintenanceRequest e) = Ok resp /\
    200 <= StatusCode resp < 300 /\
    UnmarshalSchedule ext (Body resp) = Ok m.
Proof.
  rewrite getPingdomMainenanceSchedule_run. simpl.
  destruct (Do ext (trace w) _) as [resp|err]; [|done].
  destruct (statusOK resp) eqn:Hok; [|done].
  destruct (UnmarshalSchedule ext (Body resp)) as [m'|err] eqn:Hdec; [|done].
  intros [= -> <-].
  repeat split; try done. exists resp. repeat split; try done;
    unfold statusOK in Hok; apply andb_true_iff in Hok as [H1 H2]; lia.
Qed.

Lemma getPingdomMainenanceSchedule_success_witness :
  slaMaintenance (snd (getPingdomMainenanceSchedule
                         (providerOf 204 [10; 20; 30] [10; 20])
                         (envOf 300) (worldOf 5 0))) = 2 /\
  slaTotal (snd (getPingdomMainenanceSchedule
                   (providerOf 204 [10; 20; 30] [10; 20])
                   (envOf 300) (worldOf 5 0))) = 5.
Proof.
  edestruct (getPingdomMainenanceSchedule_success
               (providerOf 204 [10; 20; 30] [10; 20])
               (envOf 300) (worldOf 5 0)) as (Hwindow & Htotal & _).
  - lazy. reflexivity.
  - split; [exact Hwindow|exact Htotal].
Defined.

(** The gauges after each call, in terms of the gauges before. *)
Lemma getPingdomChecks_gauges (ext : External) (e : Env) (w : World) :
  slaMaintenance (snd (getPingdomChecks ext e w)) = slaMaintenance w /\
  (slaTotal (snd (getPingdomChecks ext e w)) = slaTotal w \/
   0 <= slaTotal (snd (getPingdomChecks ext e w))).
Proof.
  rewrite getPingdomChecks_run. simpl.
  destruct (Do ext (trace w) _) as [resp|err]; [|by split; [|left]].
  destruct (statusOK resp); [|by split; [|left]].
  destruct (UnmarshalChecks ext (Body resp)); simpl; (split; [done|right; lia]).
Qed.

Lemma getPingdomMainenanceSchedule_gauges (ext : External) (e : Env) (w : World) :
  slaTotal (snd (getPingdomMainenanceSchedule ext e w)) = slaTotal w /\
  (slaMaintenance (snd (getPingdomMainenanceSchedule ext e w)) = slaMaintenance w \/
   0 <= slaMaintenance (snd (getPingdomMainenanceSchedule ext e w))).
Proof.
  rewrite getPingdomMainenanceSchedule_run. simpl.
  destruct (Do ext (trace w) _) as [resp|err]; [|by split; [|right]].
  destruct (statusOK resp); [|by split; [|left]].
  destruct (UnmarshalSchedule ext (Body resp)); simpl; (split; [done|right; lia]).
Qed.

Lemma update_gauges (ext : External) (e : Env) (m : PingdomMaintenanceSchedule)
  (w : World) :
  slaTotal (snd (updatePingdomMaintenanceSchedule ext e m w)) = slaTotal w /\
  slaMaintenance (snd (updatePingdomMaintenanceSchedule ext e m w))
    = slaMaintenance w.
Proof.
  destruct (update_outcome ext e m w) as (json & [(err & ->)|(response & ->)]);
    by split.
Qed.

(** X10: each call writes its own gauge only: [getPingdomChecks] never
    changes [slaMaintenance], [getPingdomMainenanceSchedule] never changes
    [slaTotal], and [updatePingdomMaintenanceSchedule] changes neither,
    whatever the provider answers. *)
Theorem gauges_frame (ext : External) (e : Env) (m : PingdomMaintenanceSchedule)
  (w : World) :
  slaMaintenance (snd (getPingdomChecks ext e w)) = slaMaintenance w /\
  slaTotal (snd (getPingdomMainenanceSchedule ext e w)) = slaTotal w /\
  slaTotal (snd (updatePingdomMaintenanceSchedule ext e m w)) = slaTotal w /\
  slaMaintenance (snd (updatePingdomMaintenanceSchedule ext e m w))
    = slaMaintenance w.
Proof.
  split; [apply getPingdomChecks_gauges|].
  split; [apply getPingdomMainenanceSchedule_gauges|].
  apply update_gauges.
Qed.

Lemma tick_gauges (ext : External) (e : Env) (w : World) :
  gaugesAreCounts w -> gaugesAreCounts (snd (tick ext e w)).
Proof.
  unfold gaugesAreCounts. intros [Ht Hm]. rewrite tick_run.
  pose proof (getPingdomChecks_gauges ext e w) as [Hm1 Ht1].
  destruct (getPingdomChecks ext e w) as [[c|err] w1]; simpl in *;
    [|lia].
  pose proof (getPingdomMainenanceSchedule_gauges ext e w1) as [Ht2 Hm2].
  destruct (getPingdomMainenanceSchedule ext e w1) as [[m|err] w2]; simpl in *;
    [|lia].
  case_bool_decide.
  - pose proof (getPingdomMainenanceSchedule_gauges ext e
                  (withEvent (Logged upToDateLine) w2)) as [Ht3 Hm3].
    simpl in *. lia.
  - pose proof (update_gauges ext e (set_Uptime m (getUptimeIds c)) w2)
      as [Ht3 Hm3].
    destruct (updatePingdomMaintenanceSchedule ext e _ w2) as [[err|] w3];
      simpl in *; lia.
Qed.

Lemma for_loop_gauges (ext : External) (e : Env) (fires : nat) :
  forall w : World,
    gaugesAreCounts w ->
    gaugesAreCounts (snd (for_loop fires (select_ticker (tick ext e)) w)).
Proof.
  induction fires as [|fires IH]; intros w Hw; [done|].
  simpl. unfold bind.
  assert (Hstep : gaugesAreCounts (snd (select_ticker (tick ext e) w))).
  { unfold select_ticker, bind, emit.
    pose proof (tick_gauges ext e (withEvent Fire w) Hw) as Htick.
    by destruct (tick ext e (withEvent Fire w)) as [ctl w1]. }
  destruct (select_ticker (tick ext e) w) as [[| |] w1]; simpl in *;
    [by apply IH|done|done].
Qed.

(** X11: gauges that show counts keep showing counts: if neither gauge is
    negative when [pollAPI] starts, neither is after any number of timer
    fires, whatever the provider answers. *)
Theorem pollAPI_gauges_are_counts (ext : External) (e : Env) (fires : nat)
  (w : World) :
  gaugesAreCounts w ->
  gaugesAreCounts (snd (pollAPI ext e fires w)).
Proof.
  intros Hw. unfold pollAPI.
  destruct (tickerPeriod e <=? 0); [done|]. by apply for_loop_gauges.
Qed.

Lemma pollAPI_gauges_are_counts_witness :
  gaugesAreCounts
    (snd (pollAPI (providerOf 200 [10; 20; 30] [10; 20]) (envOf 300) 2
                  (worldOf 0 0))).
Proof.
  apply pollAPI_gauges_are_counts. unfold gaugesAreCounts. simpl. lia.
Defined.

(** ** The requests *)

Lemma TickShape_requests (e : Env) (evs : list Event) :
  TickShape e evs ->
  Forall (authorised e) (omap requestOf evs) /\
  (1 <= length (omap requestOf evs) <= 3)%nat /\
  (length (omap ReqBody (omap requestOf evs)) <= 1)%nat.
Proof.
  assert (Hc : authorised e (checksRequest e)).
  { split; [by left|]. split; [by left|]. by left. }
  assert (Hm : authorised e (maintenanceRequest e)).
  { split; [by left|]. split; [by right|]. by left. }
  assert (Hu : forall json, authorised e (updateRequest e json)).
  { intros json. split; [by left|]. split; [by right|]. right.
    repeat split; try done. by right; left. }
  intros []; cbn;
    (split;
     [repeat (apply List.Forall_cons; [solve [auto]|]); apply List.Forall_nil
     |split; lia]).
Qed.

Lemma omap_concat {A B : Type} (f : A -> option B) (ls : list (list A)) :
  omap f (concat ls) = concat (map (omap f) ls).
Proof.
  induction ls as [|l ls IH]; [done|]. simpl. by rewrite omap_app, IH.
Qed.

(** The requests of a run of the loop, tick by tick. *)
Lemma pollAPI_requests (ext : External) (e : Env) (fires : nat) (w : World) :
  exists ticks : list (list Event),
    sentBy (pollAPI ext e fires) w = concat (map (omap requestOf) ticks) /\
    Forall (TickShape e) ticks /\
    (length ticks <= fires)%nat /\
    (0 < tickerPeriod e -> length ticks = fires).
Proof.
  unfold sentBy, pollAPI.
  destruct (Z.leb_spec (tickerPeriod e) 0) as [Hle|Hgt].
  - exists []. unfold eventsOf. simpl. rewrite drop_all.
    repeat split; [constructor|lia|lia].
  - destruct (for_loop_ticks ext e fires w) as (ticks & w' & Hrun & Htr & Hlen & Hall).
    exists ticks. split; [|split; [done|split; lia]].
    rewrite (eventsOf_app _ w (concat ticks)) by (by rewrite Hrun).
    apply omap_concat.
Qed.

(** X12: every request [pollAPI] sends, in any run, carries the header
    [Authorization: Bearer] with the configured key and goes to the list of
    checks or to the configured window; a [GET] has no body, and a body is
    sent only by a [PUT] to the window, with the content type of JSON. *)
Theorem pollAPI_requests_authorised (ext : External) (e : Env) (fires : nat)
  (w : World) :
  Forall (authorised e) (sentBy (pollAPI ext e fires) w).
Proof.
  destruct (pollAPI_requests ext e fires w) as (ticks & -> & Hall & _).
  induction Hall as [|evs ticks Hevs Hall IH]; [constructor|].
  simpl. apply Forall_app. split; [|done].
  by apply TickShape_requests.
Qed.

(** X13: a run of [pollAPI] sends at most three requests and at most one
    update per timer fire, and, once the ticker exists, at least one request
    per fire: no tick is skipped and none repeats a call. *)
Theorem pollAPI_request_budget (ext : External) (e : Env) (fires : nat)
  (w : World) :
  (length (sentBy (pollAPI ext e fires) w) <= 3 * fires)%nat /\
  (length (payloadsBy (pollAPI ext e fires) w) <= fires)%nat /\
  (0 < tickerPeriod e ->
   (fires <= length (sentBy (pollAPI ext e fires) w))%nat).
Proof.
  unfold payloadsBy.
  destruct (pollAPI_requests ext e fires w) as (ticks & -> & Hall & Hle & Heq).
  assert (H : (length ticks <= length (concat (map (omap requestOf) ticks))
               <= 3 * length ticks)%nat /\
              (length (omap ReqBody (concat (map (omap requestOf) ticks)))
               <= length ticks)%nat).
  { clear Hle Heq. induction Hall as [|evs ticks Hevs Hall IH]; [simpl; lia|].
    destruct (TickShape_requests e evs Hevs) as (_ & Hn & Hp).
    simpl. rewrite omap_app, !length_app. lia. }
  split; [lia|]. split; [lia|]. intros Hpos. rewrite <- (Heq Hpos) at 1. lia.
Qed.

(** ** The update and the tick that issues it *)

(** X14: [updatePingdomMaintenanceSchedule] returns no error exactly when
    the provider answers its request with a status from 200 to 299 and the
    body of the answer can be read; it then logs two lines, the payload it
    sent and the answer, and otherwise logs nothing itself. *)
Theorem update_succeeds_iff (ext : External) (e : Env)
  (m : PingdomMaintenanceSchedule) (w : World) :
  (fst (updatePingdomMaintenanceSchedule ext e m w) = None <->
   exists resp : Response,
     Do ext (trace w)
        (updateRequest e (Marshal (scheduleUpdate (Now ext (trace w)) m)))
       = Ok resp /\
     200 <= StatusCode resp < 300 /\
     ReadErr resp = None) /\
  (forall resp : Response,
     Do ext (trace w)
        (updateRequest e (Marshal (scheduleUpdate (Now ext (trace w)) m)))
       = Ok resp ->
     fst (updatePingdomMaintenanceSchedule ext e m w) = None ->
     loggedBy (updatePingdomMaintenanceSchedule ext e m) w
       = [putLine (Marshal (scheduleUpdate (Now ext (trace w)) m));
          responseLine (Body resp)]) /\
  (forall err : error,
     fst (updatePingdomMaintenanceSchedule ext e m w) = Some err ->
     loggedBy (updatePingdomMaintenanceSchedule ext e m) w = []).
Proof.
  pose proof (update_run ext e m w) as Hrun. simpl in Hrun.
  unfold loggedBy, eventsOf. rewrite Hrun. clear Hrun.
  assert (Hstatus : forall resp, statusOK resp = true <->
                                 200 <= StatusCode resp < 300).
  { intros resp. unfold statusOK. rewrite andb_true_iff. lia. }
  destruct (Do ext (trace w) _) as [resp|err].
  - destruct (statusOK resp) eqn:Hok.
    + destruct (ReadErr resp) as [err|] eqn:Hread; simpl.
      * split; [split; [done|]|].
        { intros (resp' & Heq & _ & Hnone). injection Heq as Heq.
          subst resp'. congruence. }
        split; [done|]. intros _ _. by rewrite drop_app_length.
      * split; [split; [|done]|].
        { intros _. exists resp. split; [done|]. split; [|done].
          by apply Hstatus. }
        split; [|done]. intros resp' Heq _. injection Heq as Heq.
        subst resp'. by rewrite <- !app_assoc, drop_app_length.
    + simpl. split; [split; [done|]|].
      { intros (resp' & Heq & Hs & _). injection Heq as Heq. subst resp'.
        apply Hstatus in Hs. congruence. }
      split; [done|]. intros _ _. by rewrite drop_app_length.
  - simpl. split; [split; [done|]|]. { by intros (? & ? & _). }
    split; [done|]. intros _ _. by rewrite drop_app_length.
Qed.

(** The state a successful fetch leaves. *)
Lemma getPingdomChecks_ok_state (ext : External) (e : Env) (w w' : World)
  (c : PingdomChecks) :
  getPingdomChecks ext e w = (Ok c, w') ->
  w' = withTotal (Z.of_nat (length (Checks_Checks c)))
                 (withEvent (Sent (checksRequest e)) w).
Proof.
  rewrite getPingdomChecks_run. simpl.
  destruct (Do ext (trace w) _) as [resp|err]; [|done].
  destruct (statusOK resp); [|done].
  destruct (UnmarshalChecks ext (Body resp)); [|done]. by intros [= -> <-].
Qed.

Lemma getPingdomMainenanceSchedule_ok_state (ext : External) (e : Env)
  (w w' : World) (m : PingdomMaintenanceSchedule) :
  getPingdomMainenanceSchedule ext e w = (Ok m, w') ->
  w' = withMaintenance (Z.of_nat (length (uptimeOf m)))
                       (withEvent (Sent (maintenanceRequest e)) w).
Proof.
  rewrite getPingdomMainenanceSchedule_run. simpl.
  destruct (Do ext (trace w) _) as [resp|err]; [|done].
  destruct (statusOK resp); [|done].
  destruct (UnmarshalSchedule ext (Body resp)); [|done]. by intros [= -> <-].
Qed.

(** X15: in a tick in which both fetches succeed and the window's uptime
    list is not the list of desired IDs, one update goes out after the two
    fetches; its payload names the desired IDs, in their order, and the TMS
    IDs and the description of the fetched window.  The update does not
    touch the gauges: after the tick [slaTotal] shows the number of checks
    and [slaMaintenance] still the number of IDs the window had before. *)
Theorem tick_sends_desired_ids (ext : External) (e : Env) (w w1 w2 : World)
  (c : PingdomChecks) (m : PingdomMaintenanceSchedule) :
  getPingdomChecks ext e w = (Ok c, w1) ->
  getPingdomMainenanceSchedule ext e w1 = (Ok m, w2) ->
  uptimeOf m <> getUptimeIds c ->
  exists payload : JObject,
    sentBy (tick ext e) w
      = [checksRequest e; maintenanceRequest e; updateRequest e payload] /\
    member payload "uptimeids"
      = Some (JString (intSliceToString (getUptimeIds c))) /\
    member payload "tmsids" = Some (JString (intSliceToString (tmsOf m))) /\
    member payload "description"
      = Some (JString (Description (Maintenance m))) /\
    slaTotal (snd (tick ext e w)) = Z.of_nat (length (Checks_Checks c)) /\
    slaMaintenance (snd (tick ext e w)) = Z.of_nat (length (uptimeOf m)).
Proof.
  intros Hchecks Hwindow Hdiff.
  pose proof (getPingdomChecks_ok_state _ _ _ _ _ Hchecks) as Hw1.
  pose proof (getPingdomMainenanceSchedule_ok_state _ _ _ _ _ Hwindow) as Hw2.
  assert (Ht1 : slaTotal w1 = Z.of_nat (length (Checks_Checks c)))
    by by rewrite Hw1.
  assert (Htr1 : trace w1 = trace w ++ [Sent (checksRequest e)])
    by by rewrite Hw1.
  assert (Hm2 : slaMaintenance w2 = Z.of_nat (length (uptimeOf m)))
    by by rewrite Hw2.
  assert (Ht2 : slaTotal w2 = slaTotal w1) by by rewrite Hw2.
  assert (Htr2 : trace w2 = trace w1 ++ [Sent (maintenanceRequest e)])
    by by rewrite Hw2.
  clear Hw1 Hw2.
  exists (Marshal (scheduleUpdate (Now ext (trace w2))
                     (set_Uptime m (getUptimeIds c)))).
  unfold sentBy, eventsOf.
  rewrite tick_run, Hchecks, Hwindow.
  rewrite bool_decide_eq_false_2 by done.
  pose proof (update_gauges ext e (set_Uptime m (getUptimeIds c)) w2)
    as [Ht3 Hm3].
  destruct (update_outcome ext e (set_Uptime m (getUptimeIds c)) w2)
    as (json & [(err & Hup)|(response & Hup)]);
    pose proof (update_payload ext e (set_Uptime m (getUptimeIds c)) w2) as Hp;
    unfold payloadsBy, sentBy, eventsOf in Hp;
    rewrite Hup in *; simpl in Hp, Ht3, Hm3;
    rewrite <- ?app_assoc, drop_app_length in Hp; injection Hp as ->;
    simpl; rewrite Htr2, Htr1, <- !app_assoc, drop_app_length;
    repeat split; try done; lia.
Qed.

Lemma tick_sends_desired_ids_witness :
  exists payload : JObject,
    sentBy (tick (providerOf 200 [10; 20; 30] [10; 20]) (envOf 300))
           (worldOf 0 0)
      = [checksRequest (envOf 300); maintenanceRequest (envOf 300);
         updateRequest (envOf 300) payload] /\
    member payload "uptimeids" = Some (JString "10,20,30") /\
    slaMaintenance (snd (tick (providerOf 200 [10; 20; 30] [10; 20])
                              (envOf 300) (worldOf 0 0))) = 2.
Proof.
  edestruct (tick_sends_desired_ids (providerOf 200 [10; 20; 30] [10; 20])
               (envOf 300) (worldOf 0 0))
    as (payload & Hsent & Hids & _ & _ & _ & Hgauge).
  - lazy. reflexivity.
  - lazy. reflexivity.
  - discriminate.
  - exists payload. split; [exact Hsent|]. split; [exact Hids|exact Hgauge].
Defined.

(** ** The older reconciler: what it appends *)

Lemma missing_elem_of (u : list Z) : forall (have : list Z) (x : Z),
  x ∈ missing have u <-> x ∈ u /\ x ∉ have.
Proof.
  induction u as [|check u IH]; intros have x; simpl.
  - split; [by intros ?%elem_of_nil|by intros [?%elem_of_nil _]].
  - destruct (Legacy.contains have check) eqn:Hc.
    + apply legacy_contains_elem_of in Hc. rewrite IH, elem_of_cons.
      split; [by intros [? ?]; auto|].
      intros [[->|?] ?]; [done|auto].
    + assert (Hnot : check ∉ have).
      { intros Hin%legacy_contains_elem_of. congruence. }
      rewrite !elem_of_cons, IH, elem_of_app, list_elem_of_singleton.
      split.
      * intros [->|[? ?]]; [by auto|]. split; [by right|]. tauto.
      * intros [[->|?] ?]; [by left|].
        destruct (decide (x = check)) as [->|?]; [by left|].
        right. split; [done|]. intros [?|?]; done.
Qed.

Lemma missing_NoDup (u : list Z) : forall have : list Z,
  NoDup (missing have u).
Proof.
  induction u as [|check u IH]; intros have; simpl; [constructor|].
  destruct (Legacy.contains have check); [apply IH|].
  constructor; [|apply IH].
  intros [_ Hnot]%missing_elem_of. apply Hnot, elem_of_app. right.
  by apply list_elem_of_singleton.
Qed.

Lemma missing_sublist (u : list Z) : forall have : list Z,
  sublist (missing have u) u.
Proof.
  induction u as [|check u IH]; intros have; simpl; [constructor|].
  destruct (Legacy.contains have check).
  - by apply sublist_cons.
  - by apply sublist_skip.
Qed.

(** X16: the older [checkMaintenanceSchedule] only ever appends: the
    returned window is the given one with IDs added at the end of its uptime
    list, and nothing else changed; the IDs added are the desired IDs that
    the list lacked, each once, in the order of the desired list.  It
    reports up to date exactly when nothing is added, which is when every
    desired ID is already in the list; an ID of the window that is not
    desired any more is never taken out. *)
Theorem legacy_appends_missing (W : PingdomMaintenanceSchedule) (D : list Z) :
  exists added : list Z,
    Legacy.checkMaintenanceSchedule W D
      = (bool_decide (added = []), set_Uptime W (uptimeOf W ++ added)) /\
    NoDup added /\
    sublist added D /\
    (forall x : Z, x ∈ added <-> x ∈ D /\ x ∉ uptimeOf W) /\
    (added = [] <-> forall x : Z, x ∈ D -> x ∈ uptimeOf W) /\
    (forall x : Z,
       x ∈ uptimeOf (snd (Legacy.checkMaintenanceSchedule W D)) <->
       x ∈ uptimeOf W \/ x ∈ D).
Proof.
  exists (missing (uptimeOf W) D).
  rewrite legacy_checkMaintenanceSchedule_spec.
  split; [done|]. split; [apply missing_NoDup|].
  split; [apply missing_sublist|]. split; [apply missing_elem_of|].
  split; [apply missing_nil_iff|].
  intros x. simpl. rewrite uptimeOf_set_Uptime, elem_of_app, missing_elem_of.
  destruct (decide (x ∈ uptimeOf W)); tauto.
Qed.

(** X17: the older [checkMaintenanceSchedule] reaches a fixed point in one
    step: applied to its own result and the same desired IDs it reports up
    to date and returns the window unchanged; and a window whose uptime list
    has no ID twice gets none twice. *)
Theorem legacy_fixed_point (W : PingdomMaintenanceSchedule) (D : list Z) :
  Legacy.checkMaintenanceSchedule
    (snd (Legacy.checkMaintenanceSchedule W D)) D
    = (true, snd (Legacy.checkMaintenanceSchedule W D)) /\
  (NoDup (uptimeOf W) ->
   NoDup (uptimeOf (snd (Legacy.checkMaintenanceSchedule W D)))).
Proof.
  split.
  - rewrite (legacy_checkMaintenanceSchedule_spec W D). simpl.
    rewrite legacy_checkMaintenanceSchedule_spec, uptimeOf_set_Uptime.
    assert (Hnone : missing (uptimeOf W ++ missing (uptimeOf W) D) D = []).
    { apply missing_nil_iff. intros x Hx. apply elem_of_app.
      destruct (decide (x ∈ uptimeOf W)); [by left|right].
      by apply missing_elem_of. }
    rewrite Hnone, app_nil_r, set_Uptime_twice.
    by rewrite bool_decide_eq_true_2.
  - intros Hnodup. rewrite legacy_checkMaintenanceSchedule_spec. simpl.
    rewrite uptimeOf_set_Uptime. apply NoDup_app.
    split; [done|]. split; [|apply missing_NoDup].
    intros x Hx [_ Hnot]%missing_elem_of. done.
Qed.

(** ** The older program, run once *)

(** [main] of the older program, case by case, for a configuration that
    start-up accepts. *)
Lemma oneshot_main_run (environ : gmap string string) (ext : External) :
  Getenv environ "API_KEY" <> EmptyString ->
  getenvInt environ "MAINTENANCE_ID" <> 0 ->
  let e := {| Oneshot.apiKey := Getenv environ "API_KEY";
              Oneshot.maintenanceID := getenvInt environ "MAINTENANCE_ID" |} in
  let cr := Sent (Oneshot.checksRequest e) in
  let mr := Sent (Oneshot.maintenanceRequest e) in
  let exited evs := (None, {| Oneshot.events := evs; Oneshot.stdout := [] |}) in
  Oneshot.main environ ext Oneshot.start =
    match Do ext [] (Oneshot.checksRequest e) with
    | Err err => exited [cr; Logged (Oneshot.checksFatal (ArgError err))]
    | Ok resp1 =>
      match UnmarshalChecks ext (Body resp1) with
      | Err err => exited [cr; Logged (Oneshot.checksFatal (ArgError err))]
      | Ok c =>
        match Do ext [cr] (Oneshot.maintenanceRequest e) with
        | Err err =>
            exited [cr; mr; Logged (Oneshot.maintenanceFatal (ArgError err))]
        | Ok resp2 =>
          match UnmarshalSchedule ext (Body resp2) with
          | Err err =>
              exited [cr; mr; Logged (Oneshot.maintenanceFatal (ArgError err))]
          | Ok m =>
            let added := missing (uptimeOf m) (getUptimeIds c) in
            if bool_decide (added = []) then
              (Some tt, {| Oneshot.events := [cr; mr];
                           Oneshot.stdout := ["Nothing to do... Exiting."%string] |})
            else
              let json := Marshal (Oneshot.scheduleUpdate
                                     (set_Uptime m (uptimeOf m ++ added))) in
              let ur := Sent (Oneshot.updateRequest e json) in
              match Do ext [cr; mr] (Oneshot.updateRequest e json) with
              | Err err =>
                  exited [cr; mr; ur; Logged (Oneshot.updateFatal (ArgError err))]
              | Ok resp3 =>
                if bool_decide (StatusCode resp3 = 200) then
                  match ReadErr resp3 with
                  | Some err =>
                      exited [cr; mr; ur;
                              Logged (Oneshot.updateFatal (ArgError err))]
                  | None =>
                      (Some tt, {| Oneshot.events := [cr; mr; ur];
                                   Oneshot.stdout := [Body resp3] |})
                  end
                else
                  exited [cr; mr; ur;
                          Logged (Oneshot.updateFatal
                                    (ArgString
                                       ("Pingdom responded with status code "
                                        +:+ strconv.Itoa (StatusCode resp3))))]
              end
          end
        end
      end
    end.
Proof.
  intros Hkey Hid. simpl.
  unfold Oneshot.main, Oneshot.newEnv.
  rewrite !bool_decide_eq_false_2 by done.
  unfold Oneshot.bind at 1. unfold Oneshot.ret at 1.
  unfold Oneshot.getPingdomChecks, Oneshot.getPingdomMainenanceSchedule,
    Oneshot.updatePingdomMaintenanceSchedule, Oneshot.bind, Oneshot.client_Do,
    Oneshot.Fatal, Oneshot.ret, Oneshot.Println. simpl.
  destruct (Do ext [] _) as [resp1|err]; [|done].
  destruct (UnmarshalChecks ext (Body resp1)) as [c|err]; [|done]. simpl.
  destruct (Do ext [_] _) as [resp2|err]; [|done].
  destruct (UnmarshalSchedule ext (Body resp2)) as [m|err]; [|done]. simpl.
  rewrite legacy_checkMaintenanceSchedule_spec.
  destruct (decide (missing (uptimeOf m) (getUptimeIds c) = [])) as [Hnone|Hsome].
  - rewrite !(bool_decide_eq_true_2 _ Hnone). done.
  - rewrite !(bool_decide_eq_false_2 _ Hsome). simpl.
    destruct (Do ext [_; _] _) as [resp3|err]; [|done].
    destruct (decide (StatusCode resp3 = 200)) as [H200|H200].
    + rewrite (bool_decide_eq_true_2 _ H200).
      rewrite bool_decide_eq_false_2 by (by intros ?).
      by destruct (ReadErr resp3).
    + rewrite (bool_decide_eq_false_2 _ H200).
      by rewrite bool_decide_eq_true_2.
Qed.

(** X18: the older program, when both fetches return a body that decodes
    (whatever the status codes of the two responses, which it does not look
    at) and every desired ID is somewhere in the window's list, sends the
    two [GET]s and no update, prints that there is nothing to do, logs
    nothing and ends normally. *)
Theorem oneshot_nothing_to_do (environ : gmap string string) (ext : External)
  (resp1 resp2 : Response) (c : PingdomChecks) (m : PingdomMaintenanceSchedule) :
  Getenv environ "API_KEY" <> EmptyString ->
  getenvInt environ "MAINTENANCE_ID" <> 0 ->
  Do ext [] (Oneshot.checksRequest (Oneshot.configured environ)) = Ok resp1 ->
  UnmarshalChecks ext (Body resp1) = Ok c ->
  Do ext [Sent (Oneshot.checksRequest (Oneshot.configured environ))]
     (Oneshot.maintenanceRequest (Oneshot.configured environ)) = Ok resp2 ->
  UnmarshalSchedule ext (Body resp2) = Ok m ->
  (forall x : Z, x ∈ getUptimeIds c -> x ∈ uptimeOf m) ->
  Oneshot.main environ ext Oneshot.start =
    (Some tt,
     {| Oneshot.events :=
          [Sent (Oneshot.checksRequest (Oneshot.configured environ));
           Sent (Oneshot.maintenanceRequest (Oneshot.configured environ))];
        Oneshot.stdout := ["Nothing to do... Exiting."%string] |}).
Proof.
  intros Hkey Hid Hdo1 Hdec1 Hdo2 Hdec2 Hall.
  pose proof (oneshot_main_run environ ext Hkey Hid) as Hrun. simpl in Hrun.
  unfold Oneshot.configured in *.
  rewrite Hrun, Hdo1, Hdec1, Hdo2, Hdec2.
  rewrite bool_decide_eq_true_2; [done|]. by apply missing_nil_iff.
Qed.

Lemma oneshot_nothing_to_do_witness :
  Oneshot.main plainEnviron (providerOf 500 [10; 20] [20; 30; 10])
               Oneshot.start =
    (Some tt,
     {| Oneshot.events :=
          [Sent (Oneshot.checksRequest (Oneshot.configured plainEnviron));
           Sent (Oneshot.maintenanceRequest (Oneshot.configured plainEnviron))];
        Oneshot.stdout := ["Nothing to do... Exiting."%string] |}).
Proof.
  apply (oneshot_nothing_to_do plainEnviron
           (providerOf 500 [10; 20] [20; 30; 10])
           (responseOf 500) (responseOf 500)
           (checksOf [10; 20]) (windowOf [20; 30; 10])).
  - vm_compute. discriminate.
  - vm_compute. discriminate.
  - reflexivity.
  - reflexivity.
  - reflexivity.
  - reflexivity.
  - apply Forall_forall. rewrite getUptimeIds_map.
    change (Forall (fun x => x ∈ [20; 30; 10]) [10; 20]).
    repeat constructor.
Defined.

(** X19: the older program, when both fetches return a body that decodes
    and some desired ID is not in the window's list, sends one update after
    the two [GET]s.  Its payload holds the window's IDs followed by the
    desired IDs that were missing, and, unlike the service, the window's own
    [from] and [to].  The program ends normally exactly when the provider
    answers the update with the status 200 (no other status will do, 2xx or
    not) and the body of the answer can be read, and it then prints that
    body; otherwise it exits in [log.Fatal]. *)
Theorem oneshot_update (environ : gmap string string) (ext : External)
  (resp1 resp2 : Response) (c : PingdomChecks) (m : PingdomMaintenanceSchedule)
  (x : Z) :
  Getenv environ "API_KEY" <> EmptyString ->
  getenvInt environ "MAINTENANCE_ID" <> 0 ->
  Do ext [] (Oneshot.checksRequest (Oneshot.configured environ)) = Ok resp1 ->
  UnmarshalChecks ext (Body resp1) = Ok c ->
  Do ext [Sent (Oneshot.checksRequest (Oneshot.configured environ))]
     (Oneshot.maintenanceRequest (Oneshot.configured environ)) = Ok resp2 ->
  UnmarshalSchedule ext (Body resp2) = Ok m ->
  x ∈ getUptimeIds c -> x ∉ uptimeOf m ->
  exists payload : JObject,
    Oneshot.sent (snd (Oneshot.main environ ext Oneshot.start)) =
      [Oneshot.checksRequest (Oneshot.configured environ);
       Oneshot.maintenanceRequest (Oneshot.configured environ);
       Oneshot.updateRequest (Oneshot.configured environ) payload] /\
    member payload "uptimeids" =
      Some (JString (intSliceToString
                       (uptimeOf m ++ missing (uptimeOf m) (getUptimeIds c)))) /\
    member payload "tmsids" = Some (JString (intSliceToString (tmsOf m))) /\
    member payload "from" = Some (JNumber (From (Maintenance m))) /\
    member payload "to" = Some (JNumber (To (Maintenance m))) /\
    (fst (Oneshot.main environ ext Oneshot.start) = Some tt <->
     exists resp3 : Response,
       Do ext [Sent (Oneshot.checksRequest (Oneshot.configured environ));
               Sent (Oneshot.maintenanceRequest (Oneshot.configured environ))]
          (Oneshot.updateRequest (Oneshot.configured environ) payload)
         = Ok resp3 /\
       StatusCode resp3 = 200 /\ ReadErr resp3 = None /\
       Oneshot.stdout (snd (Oneshot.main environ ext Oneshot.start))
         = [Body resp3]).
Proof.
  intros Hkey Hid Hdo1 Hdec1 Hdo2 Hdec2 Hx Hnot.
  pose proof (oneshot_main_run environ ext Hkey Hid) as Hrun. simpl in Hrun.
  unfold Oneshot.configured in *.
  rewrite Hrun, Hdo1, Hdec1, Hdo2, Hdec2. clear Hrun.
  assert (Hsome : missing (uptimeOf m) (getUptimeIds c) <> []).
  { intros Hnone. apply Hnot.
    by apply (proj1 (missing_nil_iff (getUptimeIds c) (uptimeOf m)) Hnone). }
  rewrite bool_decide_eq_false_2 by done.
  exists (Marshal (Oneshot.scheduleUpdate
                     (set_Uptime m (uptimeOf m ++
                                    missing (uptimeOf m) (getUptimeIds c))))).
  split; [|split; [reflexivity|split; [reflexivity|
           split; [reflexivity|split; [reflexivity|]]]]].
  - destruct (Do ext [_; _] _) as [resp3|err]; [|reflexivity].
    case_bool_decide; [|reflexivity]. by destruct (ReadErr resp3).
  - destruct (Do ext [_; _] _) as [resp3|err].
    + case_bool_decide as H200.
      * destruct (ReadErr resp3) as [err|] eqn:Hread; simpl.
        -- split; [done|]. intros (r & Heq & _ & Hnone & _).
           injection Heq as <-. congruence.
        -- split; [|done]. intros _. by exists resp3.
      * simpl. split; [done|]. intros (r & Heq & Hs & _).
        injection Heq as <-. done.
    + simpl. split; [done|]. by intros (r & Heq & _).
Qed.

Lemma oneshot_update_witness :
  exists payload : JObject,
    Oneshot.sent (snd (Oneshot.main plainEnviron
                         (providerOf 200 [10; 20; 30] [20; 10])
                         Oneshot.start)) =
      [Oneshot.checksRequest (Oneshot.configured plainEnviron);
       Oneshot.maintenanceRequest (Oneshot.configured plainEnviron);
       Oneshot.updateRequest (Oneshot.configured plainEnviron) payload] /\
    member payload "uptimeids" = Some (JString "20,10,30") /\
    member payload "from" = Some (JNumber 1577890800).
Proof.
  destruct (oneshot_update plainEnviron (providerOf 200 [10; 20; 30] [20; 10])
              (responseOf 200) (responseOf 200)
              (checksOf [10; 20; 30]) (windowOf [20; 10]) 30)
    as (payload & Hsent & Hids & _ & Hfrom & _).
  - vm_compute. discriminate.
  - vm_compute. discriminate.
  - reflexivity.
  - reflexivity.
  - reflexivity.
  - reflexivity.
  - rewrite getUptimeIds_map. change (30 ∈ [10; 20; 30]). repeat constructor.
  - change (30 ∉ [20; 10]). intros Hin.
    apply elem_of_cons in Hin as [Hin|Hin]; [discriminate|].
    apply list_elem_of_singleton in Hin. discriminate.
  - exists payload. split; [exact Hsent|]. split; [exact Hids|exact Hfrom].
Defined.

(** With a configuration that start-up refuses the older program exits at
    once. *)
Lemma oneshot_main_refused (environ : gmap string string) (ext : External) :
  Getenv environ "API_KEY" = EmptyString \/
  getenvInt environ "MAINTENANCE_ID" = 0 ->
  exists line : LogLine,
    Oneshot.main environ ext Oneshot.start =
      (None, {| Oneshot.events := [Logged line]; Oneshot.stdout := [] |}).
Proof.
  intros Hbad. unfold Oneshot.main, Oneshot.newEnv, Oneshot.bind at 1.
  destruct (decide (Getenv environ "API_KEY" = EmptyString)) as [Hkey|Hkey].
  - rewrite (bool_decide_eq_true_2 _ Hkey). by eexists.
  - rewrite (bool_decide_eq_false_2 _ Hkey).
    destruct Hbad as [?|Hid]; [done|].
    rewrite (bool_decide_eq_true_2 _ Hid). by eexists.
Qed.

(** The two ways a run of the older program ends: normally, after requests
    and one printed line, or in [log.Fatal], after requests and one logged
    line. *)
Lemma oneshot_main_shape (environ : gmap string string) (ext : External) :
  exists reqs : list Request,
    (length reqs <= 3)%nat /\
    (length (omap ReqBody reqs) <= 1)%nat /\
    (Getenv environ "API_KEY" = EmptyString \/
     getenvInt environ "MAINTENANCE_ID" = 0 -> reqs = []) /\
    ((exists text : string,
        Oneshot.main environ ext Oneshot.start =
          (Some tt, {| Oneshot.events := map Sent reqs;
                       Oneshot.stdout := [text] |})) \/
     (exists line : LogLine,
        Oneshot.main environ ext Oneshot.start =
          (None, {| Oneshot.events := map Sent reqs ++ [Logged line];
                    Oneshot.stdout := [] |}))).
Proof.
  destruct (decide (Getenv environ "API_KEY" = EmptyString)) as [Hkey|Hkey].
  { destruct (oneshot_main_refused environ ext (or_introl Hkey)) as [line ->].
    exists []. simpl. repeat split; try lia. right. by exists line. }
  destruct (decide (getenvInt environ "MAINTENANCE_ID" = 0)) as [Hid|Hid].
  { destruct (oneshot_main_refused environ ext (or_intror Hid)) as [line ->].
    exists []. simpl. repeat split; try lia. right. by exists line. }
  pose proof (oneshot_main_run environ ext Hkey Hid) as Hrun. simpl in Hrun.
  rewrite Hrun. clear Hrun.
  set (e := {| Oneshot.apiKey := Getenv environ "API_KEY";
               Oneshot.maintenanceID := getenvInt environ "MAINTENANCE_ID" |}).
  set (cr := Oneshot.checksRequest e).
  set (mr := Oneshot.maintenanceRequest e).
  destruct (Do ext [] cr) as [resp1|err]; [|exits_after [cr]].
  destruct (UnmarshalChecks ext (Body resp1)) as [c|err];
    [|exits_after [cr]].
  destruct (Do ext [Sent cr] mr) as [resp2|err]; [|exits_after [cr; mr]].
  destruct (UnmarshalSchedule ext (Body resp2)) as [m|err];
    [|exits_after [cr; mr]].
  case_bool_decide; [returns_after [cr; mr]|].
  set (ur := Oneshot.updateRequest e _).
  destruct (Do ext [Sent cr; Sent mr] ur) as [resp3|err];
    [|exits_after [cr; mr; ur]].
  case_bool_decide; [|exits_after [cr; mr; ur]].
  destruct (ReadErr resp3);
    [exits_after [cr; mr; ur]|returns_after [cr; mr; ur]].
Qed.

Lemma requests_of_sent (reqs : list Request) :
  omap requestOf (map Sent reqs) = reqs.
Proof. induction reqs as [|r reqs IH]; [done|]. cbn. by f_equal. Qed.

Lemma lines_of_sent (reqs : list Request) :
  omap lineOf (map Sent reqs) = [].
Proof. induction reqs as [|r reqs IH]; [done|]. by cbn. Qed.

(** X20: however the provider answers and whatever the environment holds,
    a run of the older program sends at most three requests, at most one of
    them with a body, and none at all with a configuration that start-up
    refuses.  It either ends normally, having logged nothing and printed one
    line, or exits in [log.Fatal], having printed nothing and logged exactly
    one line, which is the last thing it did. *)
Theorem oneshot_exit_discipline (environ : gmap string string) (ext : External) :
  (length (Oneshot.sent (snd (Oneshot.main environ ext Oneshot.start))) <= 3)%nat /\
  (length (omap ReqBody
             (Oneshot.sent (snd (Oneshot.main environ ext Oneshot.start))))
   <= 1)%nat /\
  (Getenv environ "API_KEY" = EmptyString \/
   getenvInt environ "MAINTENANCE_ID" = 0 ->
   fst (Oneshot.main environ ext Oneshot.start) = None /\
   Oneshot.sent (snd (Oneshot.main environ ext Oneshot.start)) = []) /\
  (fst (Oneshot.main environ ext Oneshot.start) = Some tt <->
   Oneshot.logged (snd (Oneshot.main environ ext Oneshot.start)) = []) /\
  (fst (Oneshot.main environ ext Oneshot.start) = Some tt ->
   length (Oneshot.stdout (snd (Oneshot.main environ ext Oneshot.start))) = 1%nat) /\
  (fst (Oneshot.main environ ext Oneshot.start) = None ->
   Oneshot.stdout (snd (Oneshot.main environ ext Oneshot.start)) = [] /\
   exists line : LogLine,
     Oneshot.logged (snd (Oneshot.main environ ext Oneshot.start)) = [line] /\
     last (Oneshot.events (snd (Oneshot.main environ ext Oneshot.start)))
       = Some (Logged line)).
Proof.
  pose proof (oneshot_main_refused environ ext) as Hexit.
  destruct (oneshot_main_shape environ ext)
    as (reqs & Hlen & Hbodies & Hrefused & [[text Heq]|[line Heq]]);
    rewrite Heq; unfold Oneshot.sent, Oneshot.logged; simpl;
    rewrite ?omap_app, ?requests_of_sent, ?lines_of_sent; simpl;
    rewrite ?app_nil_r.
  - split; [done|]. split; [done|]. split.
    { intros Hbad. destruct (Hexit Hbad) as [line Hnone]. congruence. }
    by repeat split.
  - split; [done|]. split; [done|]. split.
    { intros Hbad. split; [done|]. by apply Hrefused. }
    split; [by split|]. split; [done|]. intros _. split; [done|].
    exists line. split; [done|]. by rewrite last_snoc.
Qed.
